(** * Value-Up: a shallow embedding of check_value_up.py

    The script polls the OpenDART API for value-up plan disclosures of a
    list of companies, keeps a persisted set of receipt numbers already
    evaluated, and hands new matches to a CSV ledger, an e-mail digest and a
    Slack webhook.

    Python strings are modelled as Rocq strings holding their UTF-8 bytes;
    sets of receipt numbers as [gset string]; the insertion-ordered
    [corp_map] dict as an association list; files, the network and the
    logger through a small state / exception / output monad.  [str.strip]
    is written out on all of Python's whitespace characters; the case
    mapping of [str.lower] outside ASCII is left to the surroundings of a
    run, so that what is proved of the resolver holds whatever it is. *)

From Stdlib Require Import ZArith Ascii String List Lia Bool.
From stdpp Require Import base decidable option list gmap sets strings pretty.

(* stdpp's solvers clear hypotheses by name; the notice is of no use here. *)
#[local] Set Warnings "-clear-no-such-hyp".

Local Open Scope Z_scope.
Local Open Scope list_scope.
Local Open Scope stdpp_scope.

(* ------------------------------------------------------------------ *)
(** ** Python string operations *)
(* ------------------------------------------------------------------ *)

Module PyStr.

(** [str.lower] on the ASCII letters: [A]..[Z] are mapped to [a]..[z] and
    every other byte is left alone.  This is [str.lower] on a string whose
    cased characters are all ASCII (Hangul has no case); the classifier,
    whose keywords are such strings, is written with it.  What [str.lower]
    does to other cased characters is not modelled: the resolver takes it
    as a function of the surroundings ([str_lower] below). *)
Definition lower_char (c : ascii) : ascii :=
  let n := N_of_ascii c in
  if ((65 <=? n) && (n <=? 90))%N then ascii_of_N (n + 32) else c.

Fixpoint lower (s : string) : string :=
  match s with
  | EmptyString => EmptyString
  | String c s' => String (lower_char c) (lower s')
  end.

(** [str.isspace] on a character, by its UTF-8 bytes.  One byte: TAB, LF,
    VT, FF, CR, FS, GS, RS, US and the space. *)
Definition is_space (c : ascii) : bool :=
  let n := N_of_ascii c in
  (((9 <=? n) && (n <=? 13)) || ((28 <=? n) && (n <=? 32)))%N.

(** Two bytes: U+0085 (C2 85) and U+00A0 (C2 A0). *)
Definition is_space2 (c1 c2 : ascii) : bool :=
  let a := N_of_ascii c1 in
  let b := N_of_ascii c2 in
  ((a =? 194) && ((b =? 133) || (b =? 160)))%N.

(** Three bytes: U+1680 (E1 9A 80), U+2000..U+200A, U+2028, U+2029 and
    U+202F (E2 80 80..8A, E2 80 A8, E2 80 A9, E2 80 AF), U+205F (E2 81 9F)
    and U+3000 (E3 80 80).  No other character is whitespace to Python. *)
Definition is_space3 (c1 c2 c3 : ascii) : bool :=
  let a := N_of_ascii c1 in
  let b := N_of_ascii c2 in
  let c := N_of_ascii c3 in
  (((a =? 225) && (b =? 154) && (c =? 128))
   || ((a =? 226) && (b =? 128)
       && (((128 <=? c) && (c <=? 138)) || (c =? 168) || (c =? 169) || (c =? 175)))
   || ((a =? 226) && (b =? 129) && (c =? 159))
   || ((a =? 227) && (b =? 128) && (c =? 128)))%N.

(** [s] is one whitespace character. *)
Definition is_space_char (s : string) : bool :=
  match s with
  | String c1 EmptyString => is_space c1
  | String c1 (String c2 EmptyString) => is_space2 c1 c2
  | String c1 (String c2 (String c3 EmptyString)) => is_space3 c1 c2 c3
  | _ => false
  end.

(** What follows the whitespace character [s] starts with, if it starts
    with one. *)
Definition after_space (s : string) : option string :=
  match s with
  | EmptyString => None
  | String c1 s1 =>
      if is_space c1 then Some s1
      else match s1 with
           | EmptyString => None
           | String c2 s2 =>
               if is_space2 c1 c2 then Some s2
               else match s2 with
                    | EmptyString => None
                    | String c3 s3 => if is_space3 c1 c2 c3 then Some s3 else None
                    end
           end
  end.

(** [s.lstrip()]: the whitespace characters at the start are removed. *)
Fixpoint lstrip (s : string) : string :=
  match s with
  | EmptyString => EmptyString
  | String c1 s1 =>
      if is_space c1 then lstrip s1
      else match s1 with
           | EmptyString => s
           | String c2 s2 =>
               if is_space2 c1 c2 then lstrip s2
               else match s2 with
                    | EmptyString => s
                    | String c3 s3 => if is_space3 c1 c2 c3 then lstrip s3 else s
                    end
           end
  end.

(** [s.rstrip()]: the whitespace characters at the end are removed.  Going
    from the end, what is left of the tail with one more byte in front is
    dropped when it is one whitespace character. *)
Fixpoint rstrip (s : string) : string :=
  match s with
  | EmptyString => EmptyString
  | String c s' =>
      let r := String c (rstrip s') in
      if is_space_char r then EmptyString else r
  end.

(** [s.strip()] *)
Definition strip (s : string) : string := rstrip (lstrip s).

(** [s.startswith(p)] *)
Fixpoint startswith (p s : string) : bool :=
  match p, s with
  | EmptyString, _ => true
  | String _ _, EmptyString => false
  | String a p', String b s' => if decide (a = b) then startswith p' s' else false
  end.

(** [sub in s] *)
Fixpoint contains (sub s : string) : bool :=
  startswith sub s ||
  match s with
  | EmptyString => false
  | String _ s' => contains sub s'
  end.

(** [s.split(sep)] for a one-character separator *)
Fixpoint split (sep : ascii) (s : string) : list string :=
  match s with
  | EmptyString => [EmptyString]
  | String c s' =>
      match split sep s' with
      | [] => []
      | w :: ws => if decide (c = sep) then EmptyString :: w :: ws
                   else String c w :: ws
      end
  end.

Definition newline : string := String (ascii_of_N 10) EmptyString.

(** [s] has [sub] as a run of consecutive characters, at any position. *)
Definition substring_of (sub s : string) : Prop :=
  ∃ pre post, s = pre +:+ sub +:+ post.

End PyStr.

(* ------------------------------------------------------------------ *)
(** ** Filing records and the classifier *)
(* ------------------------------------------------------------------ *)

(** One entry of the [list] array of a [list.json] response.  A field is
    [None] when the key is absent from the JSON object. *)
Record filing := Filing {
  corp_name  : option string;
  stock_code : option string;
  report_nm  : option string;
  rcept_dt   : option string;
  rcept_no   : option string;
}.

Global Instance filing_eq_dec : EqDecision filing.
Proof. solve_decision. Defined.

Definition VALUE_UP_KEYWORDS : list string :=
  [ "기업가치제고";
    "기업가치제고계획";
    "밸류업";
    "value up";
    "value-up";
    "기업가치 제고" ].

(** [filing.get(key, "")] *)
Definition get_or_empty (field : option string) : string := default "" field.

(** [is_value_up_filing]: the [for] loop returning [True] at the first
    keyword found is [existsb]. *)
Definition is_value_up_filing (f : filing) : bool :=
  let title := PyStr.lower (default "" (report_nm f)) in
  existsb (fun kw => PyStr.contains (PyStr.lower kw) title) VALUE_UP_KEYWORDS.

Global Arguments is_value_up_filing : simpl never.

(** [filing_url] *)
Definition filing_url (f : filing) : string :=
  "https://dart.fss.or.kr/dsaf001/main.do?rcpNo=" +:+ get_or_empty (rcept_no f).

Global Arguments filing_url : simpl never.

(** A title contains a keyword case-insensitively when some run of
    consecutive characters of the title equals the keyword up to case. *)
Definition contains_ci (kw title : string) : Prop :=
  ∃ pre mid post, title = pre +:+ mid +:+ post ∧ PyStr.lower mid = PyStr.lower kw.

(* ------------------------------------------------------------------ *)
(** ** The identifier cache: an insertion-ordered dict *)
(* ------------------------------------------------------------------ *)

(** [corp_map] is a Python dict from lower-cased names and stock codes to
    corp codes.  Iteration follows insertion order, which the partial match
    depends on, so the dict is kept as the list of its items in that
    order. *)
Module Dict.

(** [d.get(k)], also deciding [k in d] *)
Fixpoint get (k : string) (d : list (string * string)) : option string :=
  match d with
  | [] => None
  | (k', v) :: d' => if decide (k = k') then Some v else get k d'
  end.

(** [d[k] = v]: a key already present keeps its place and takes the new
    value, a new key goes to the end. *)
Fixpoint set (k v : string) (d : list (string * string)) : list (string * string) :=
  match d with
  | [] => [(k, v)]
  | (k', v') :: d' => if decide (k = k') then (k, v) :: d' else (k', v') :: set k v d'
  end.

End Dict.

(** One [list] element of the bulk company listing; a field is [None] when
    [findtext] finds no such child. *)
Record corp_item := CorpItem {
  item_corp_name  : option string;
  item_corp_code  : option string;
  item_stock_code : option string;
}.

(** The loop of [get_corp_code] that fills [corp_map] (lines 101-108);
    [lower] is [str.lower]. *)
Definition build_corp_map (lower : string → string) (items : list corp_item)
  : list (string * string) :=
  fold_left
    (fun corp_map item =>
       let name     := PyStr.strip (default "" (item_corp_name item)) in
       let code     := PyStr.strip (default "" (item_corp_code item)) in
       let stock_cd := PyStr.strip (default "" (item_stock_code item)) in
       if decide (code = "") then corp_map
       else Dict.set (lower stock_cd) code
              (Dict.set (lower name) code corp_map))
    items [].

(** The partial-match loop of [_search_corp_map]: the code of the first
    item whose key contains [q]. *)
Fixpoint first_partial (q : string) (corp_map : list (string * string)) : option string :=
  match corp_map with
  | [] => None
  | (key, code) :: rest =>
      if PyStr.contains q key then Some code else first_partial q rest
  end.

(** [_search_corp_map]; [lower] is [str.lower]. *)
Definition _search_corp_map (lower : string → string)
    (corp_map : list (string * string)) (query : string) : option string :=
  let q := lower (PyStr.strip query) in
  match Dict.get q corp_map with
  | Some code => Some code
  | None => first_partial q corp_map
  end.

Global Arguments _search_corp_map : simpl never.
Global Arguments build_corp_map : simpl never.

(** The lookup policy as the specification words it: the query is
    lower-cased (nothing else), looked up exactly, then searched for as a
    substring of the keys in order. *)
Definition resolve_as_specified (lower : string → string)
    (corp_map : list (string * string)) (query : string) : option string :=
  let q := lower query in
  match Dict.get q corp_map with
  | Some code => Some code
  | None => first_partial q corp_map
  end.

(** The bulk listing of the specification's example. *)
Definition example_listing : list corp_item :=
  [ CorpItem (Some "Acme Corp") (Some "00012345") (Some "012345");
    CorpItem (Some "Beta Inc")  (Some "00098765") (Some "098765") ].


(* ------------------------------------------------------------------ *)
(** ** Files, the network and the log *)
(* ------------------------------------------------------------------ *)

(** The CSV ledger as pandas holds it. *)
Module Csv.

(** A DataFrame cell.  The rows [save_to_csv] builds hold [str] objects;
    the table [pd.read_csv] returns has columns it has typed itself: a
    column of digits comes back as integers ([CNum]), a column of digits
    with an empty field as floats and NaN ([CFloat], a float other than
    NaN by its [repr], which identifies it up to the sign of zero), an
    empty field among text as NaN.  So a cell is not identified with its
    text, and [drop_duplicates] compares cells as objects: the integer
    20240520000123 and the string "20240520000123" are two values. *)
Inductive cell := CStr (s : string) | CNum (z : Z) | CFloat (repr : string) | CNaN.

Global Instance cell_eq_dec : EqDecision cell.
Proof. solve_decision. Defined.

Record row := Row {
  company      : cell;
  stock_code   : cell;
  report_title : cell;
  filed_date   : cell;
  receipt_no   : cell;
  dart_url     : cell;
  checked_on   : cell;
}.

Global Instance row_eq_dec : EqDecision row.
Proof. solve_decision. Defined.

(** [df.drop_duplicates(subset=["receipt_no"])]: of the rows with equal
    [receipt_no] the first one is kept, in the order of the table. *)
Fixpoint drop_duplicates_from (kept : list cell) (df : list row) : list row :=
  match df with
  | [] => []
  | r :: df' =>
      if decide (receipt_no r ∈ kept) then drop_duplicates_from kept df'
      else r :: drop_duplicates_from (receipt_no r :: kept) df'
  end.

Definition drop_duplicates (df : list row) : list row := drop_duplicates_from [] df.

(** The field [to_csv] writes for a cell. *)
Definition text (c : cell) : string :=
  match c with
  | CStr s => s
  | CNum z => pretty z
  | CFloat repr => repr
  | CNaN => ""
  end.

End Csv.

Inductive path := COMPANIES_FILE | SEEN_FILE | OUTPUT_CSV | CACHE_FILE.

(** The files next to the script; [None] when the file does not exist.
    [companies_txt] holds the lines of the file, [seen_filings_json] the
    JSON array, [value_up_filings_csv] the table last written,
    [corp_codes_json] the modification time (in seconds) and the dict. *)
Record files := Files {
  companies_txt        : option (list string);
  seen_filings_json    : option (list string);
  value_up_filings_csv : option (list Csv.row);
  corp_codes_json      : option (Z * list (string * string));
}.

Inductive exn :=
| KeyError (key : string)
| ConnectionError
| HTTPError
| JSONDecodeError
| BadZipFile
| SMTPException
| OSError
| ParserError.

(** What [requests.get] on [corpCode.xml] and the unpacking of its body
    come to. *)
Inductive download :=
| DlUnreachable
| DlHttpError
| DlBadArchive
| DlListing (items : list corp_item).

(** What [requests.get] on [list.json] comes to: no response, a response
    [raise_for_status] rejects, a body that is not the expected JSON, or a
    JSON object with its [status], [message] and [list] keys ([None] when
    absent). *)
Inductive response :=
| RUnreachable
| RHttpError
| RMalformed
| RJson (status message : option string) (list_ : option (list filing)).

Inductive smtp_outcome := SmtpNoConnection | SmtpLoginRefused | SmtpSendRefused | SmtpAccepted.
Inductive post_outcome := PostUnreachable | PostHttpError | PostAccepted.

(** The settings read from the environment at import and everything
    outside the script that one run meets: the clock, the formatted dates,
    the answers of the network (the [n]-th [list.json] request of the run
    gets [list_json n]), whether pandas can read and write the ledger and
    what it reads, and [str.lower] as the interpreter has it ([str_lower];
    its case mapping outside ASCII is not fixed here). *)
Record env := Env {
  DART_API_KEY   : string;
  EMAIL_SENDER   : string;
  EMAIL_PASSWORD : string;
  EMAIL_TO       : string;
  SLACK_WEBHOOK  : string;
  now            : Z;
  bgn_de         : string;
  end_de         : string;
  today          : string;
  corp_code_xml  : download;
  list_json      : nat → response;
  pd_read_csv    : list Csv.row → option (list Csv.row);
  to_csv_ok      : bool;
  smtp           : smtp_outcome;
  slack          : post_outcome;
  str_lower      : string → string;
}.

Inductive level := INFO | WARNING | ERROR.

(** The log lines of the script, by their format string and arguments. *)
Inductive message :=
| MsgRule
| MsgStarting
| MsgNoApiKey
| MsgCompaniesFileMissing
| MsgMonitoring (n : nat)
| MsgDownloading
| MsgCached (n : nat)
| MsgNoCorpCode (company : string)
| MsgChecking (company corp_code : string)
| MsgReturned (n : nat)
| MsgFiling (date title : string)
| MsgAlreadySeen
| MsgNewValueUp (title date : string)
| MsgApiStatus (status message : option string)
| MsgSearchError (corp_code pblntf_ty : string) (e : exn)
| MsgFound (n : nat)
| MsgNoneFound
| MsgDone
| MsgCsvSaved (n : nat)
| MsgEmailSkipped
| MsgEmailSent (recipients : list string)
| MsgEmailFailed (e : exn)
| MsgSlackSent
| MsgSlackFailed (e : exn).

Inductive sink := CSV | EMAIL | SLACK.

(** What a run does that can be seen from outside, in order. *)
Inductive event :=
| Log (lv : level) (msg : message)
| FsRead (p : path)
| FsWrite (p : path)
| Call (s : sink) (new_filings : list filing)
| GetCorpCodeXml
| GetListJson (corp_code bgn_de end_de pblntf_ty : string)
| SmtpConnect
| SmtpLogin (sender : string)
| SmtpSendmail (sender : string) (recipients : list string) (rows : string)
               (new_filings : list filing)
| PostSlack (webhook : string) (blocks : list string) (new_filings : list filing).

(** The state a run threads: the files and the number of [list.json]
    requests made so far. *)
Record state := State {
  disk          : files;
  requests_made : nat;
}.

Inductive result (A : Type) :=
| Ok (a : A)
| Raise (e : exn).
Arguments Ok {A} a.
Arguments Raise {A} e.

Record outcome (A : Type) := Outcome {
  res  : result A;
  post : state;
  out  : list event;
}.
Arguments Outcome {A} res post out.
Arguments res {A} o.
Arguments post {A} o.
Arguments out {A} o.

(** A computation: from a state to a value or an exception, the state
    left behind and the events produced. *)
Definition M (A : Type) : Type := state → outcome A.

Global Instance M_ret : MRet M := λ A a s, Outcome (Ok a) s [].

Global Instance M_bind : MBind M := λ A B f m s,
  let o := m s in
  match res o with
  | Ok a => let o' := f a (post o) in Outcome (res o') (post o') (out o ++ out o')
  | Raise e => Outcome (Raise e) (post o) (out o)
  end.

Definition raise {A : Type} (e : exn) : M A := λ s, Outcome (Raise e) s [].

(** [try: body except Exception as e: handler e] *)
Definition try_except {A : Type} (body : M A) (handler : exn → M A) : M A := λ s,
  let o := body s in
  match res o with
  | Ok a => o
  | Raise e => let o' := handler e (post o) in
               Outcome (res o') (post o') (out o ++ out o')
  end.

Definition tell (ev : event) : M unit := λ s, Outcome (Ok ()) s [ev].

Definition log (lv : level) (msg : message) : M unit := tell (Log lv msg).

Definition read_disk : M files := λ s, Outcome (Ok (disk s)) s [].

Definition write_disk (f : files → files) : M unit := λ s,
  Outcome (Ok ()) (State (f (disk s)) (requests_made s)) [].

Definition next_request : M nat := λ s,
  Outcome (Ok (requests_made s)) (State (disk s) (S (requests_made s))) [].

(** A [for] loop updating [b] over the elements of [l]. *)
Fixpoint foldM {A B : Type} (f : B → A → M B) (l : list A) (b : B) : M B :=
  match l with
  | [] => mret b
  | a :: l' => b' ← f b a; foldM f l' b'
  end.

(** [d[key]] on a record field: a missing key raises [KeyError]. *)
Definition subscript (key : string) (field : option string) : M string :=
  match field with
  | Some v => mret v
  | None => raise (KeyError key)
  end.

(* ------------------------------------------------------------------ *)
(** ** The functions of the script *)
(* ------------------------------------------------------------------ *)

Definition API_KEY_PLACEHOLDER : string := "YOUR_DART_API_KEY_HERE".

Definition BUILT_IN_COMPANIES : list string :=
  [ "삼성전자"; "005930"; "현대차"; "POSCO홀딩스" ].

Definition SEVEN_DAYS : Z := 7 * 86400.

(** Lines 90-114 of [get_corp_code]: the listing is downloaded, the dict
    rebuilt, written to the cache and searched.  Nothing catches a failed
    download. *)
Definition refresh_corp_codes (e : env) (company : string) : M (option string) :=
  log INFO MsgDownloading;;
  tell GetCorpCodeXml;;
  match corp_code_xml e with
  | DlUnreachable => raise ConnectionError
  | DlHttpError => raise HTTPError
  | DlBadArchive => raise BadZipFile
  | DlListing items =>
      let corp_map := build_corp_map (str_lower e) items in
      tell (FsWrite CACHE_FILE);;
      write_disk (λ d, Files (companies_txt d) (seen_filings_json d)
                             (value_up_filings_csv d) (Some (now e, corp_map)));;
      log INFO (MsgCached (length corp_map `div` 2)%nat);;
      mret (_search_corp_map (str_lower e) corp_map company)
  end.

(** [get_corp_code]: the cache is searched when it exists and is younger
    than seven days; otherwise it is refreshed first. *)
Definition get_corp_code (e : env) (company : string) : M (option string) :=
  fs ← read_disk;
  match corp_codes_json fs with
  | Some (mtime, corp_map) =>
      if decide (now e - mtime < SEVEN_DAYS) then
        tell (FsRead CACHE_FILE);;
        mret (_search_corp_map (str_lower e) corp_map company)
      else refresh_corp_codes e company
  | None => refresh_corp_codes e company
  end.

(** One turn of the loop of [search_filings] over the disclosure types:
    the request and the reading of its answer sit in a [try] whose
    handler logs the exception. *)
Definition search_category (e : env) (corp_code bgn_de end_de : string)
    (all_filings : list filing) (pblntf_ty : string) : M (list filing) :=
  try_except
    (n ← next_request;
     tell (GetListJson corp_code bgn_de end_de pblntf_ty);;
     match list_json e n with
     | RUnreachable => raise ConnectionError
     | RHttpError => raise HTTPError
     | RMalformed => raise JSONDecodeError
     | RJson status message list_ =>
         if decide (status = Some "000") then
           mret (all_filings ++ default [] list_)
         else if decide (status = Some "013") then
           mret all_filings
         else
           log WARNING (MsgApiStatus status message);;
           mret all_filings
     end)
    (λ ex, log ERROR (MsgSearchError corp_code pblntf_ty ex);;
           mret all_filings).

Definition search_filings (e : env) (corp_code bgn_de end_de : string)
  : M (list filing) :=
  foldM (search_category e corp_code bgn_de end_de) ["A"; "B"] [].

(** [load_seen] and [save_seen] *)
Definition load_seen : M (gset string) :=
  fs ← read_disk;
  match seen_filings_json fs with
  | Some ids => tell (FsRead SEEN_FILE);; mret (list_to_set ids)
  | None => mret ∅
  end.

Definition save_seen (seen : gset string) : M unit :=
  tell (FsWrite SEEN_FILE);;
  write_disk (λ d, Files (companies_txt d) (Some (elements seen))
                         (value_up_filings_csv d) (corp_codes_json d)).

(** [load_companies] *)
Definition load_companies : M (list string) :=
  fs ← read_disk;
  match companies_txt fs with
  | None => log WARNING MsgCompaniesFileMissing;; mret BUILT_IN_COMPANIES
  | Some lines =>
      tell (FsRead COMPANIES_FILE);;
      mret (filter (λ line, line ≠ "" ∧ PyStr.startswith "#" line = false)
                   (PyStr.strip <$> lines))
  end.

(** The body of the loop of [run] over the filings of one company (lines
    351-365), on the pair of [seen] and [new_filings]. *)
Definition process_filing (acc : gset string * list filing) (f : filing)
  : M (gset string * list filing) :=
  let '(seen, new_filings) := acc in
  let rcept_no_ := get_or_empty (rcept_no f) in
  let title := get_or_empty (report_nm f) in
  let date := get_or_empty (rcept_dt f) in
  log INFO (MsgFiling date title);;
  if decide (rcept_no_ ∈ seen) then
    log INFO MsgAlreadySeen;;
    mret (seen, new_filings)
  else if is_value_up_filing f then
    log INFO (MsgNewValueUp title date);;
    mret ({[ rcept_no_ ]} ∪ seen, new_filings ++ [f])
  else
    mret ({[ rcept_no_ ]} ∪ seen, new_filings).

(** The body of the loop of [run] over the companies (lines 341-365). *)
Definition check_company (e : env) (acc : gset string * list filing)
    (company : string) : M (gset string * list filing) :=
  corp_code ← get_corp_code e company;
  match corp_code with
  | Some code =>
      if decide (code = "") then
        log WARNING (MsgNoCorpCode company);; mret acc
      else
        log INFO (MsgChecking company code);;
        filings ← search_filings e code (bgn_de e) (end_de e);
        log INFO (MsgReturned (length filings));;
        foldM process_filing filings acc
  | None => log WARNING (MsgNoCorpCode company);; mret acc
  end.

(** The row [save_to_csv] builds for a filing. *)
Definition csv_row (e : env) (f : filing) : Csv.row :=
  Csv.Row (Csv.CStr (get_or_empty (corp_name f)))
          (Csv.CStr (get_or_empty (stock_code f)))
          (Csv.CStr (get_or_empty (report_nm f)))
          (Csv.CStr (get_or_empty (rcept_dt f)))
          (Csv.CStr (get_or_empty (rcept_no f)))
          (Csv.CStr (filing_url f))
          (Csv.CStr (today e)).

(** The table [save_to_csv] writes: the existing table, when there is one,
    followed by the new rows and then freed of duplicates; the new rows
    alone otherwise. *)
Definition csv_table (df_existing : option (list Csv.row)) (df_new : list Csv.row)
  : list Csv.row :=
  match df_existing with
  | Some existing => Csv.drop_duplicates (existing ++ df_new)
  | None => df_new
  end.

(** [save_to_csv]: nothing catches a failure of [pd.read_csv] or
    [to_csv]. *)
Definition save_to_csv (e : env) (new_filings : list filing) : M unit :=
  tell (Call CSV new_filings);;
  let df_new := csv_row e <$> new_filings in
  fs ← read_disk;
  df_existing ← match value_up_filings_csv fs with
                | Some stored =>
                    tell (FsRead OUTPUT_CSV);;
                    match pd_read_csv e stored with
                    | Some df => mret (Some df)
                    | None => raise ParserError
                    end
                | None => mret None
                end;
  let df_all := csv_table df_existing df_new in
  if to_csv_ok e then
    tell (FsWrite OUTPUT_CSV);;
    write_disk (λ d, Files (companies_txt d) (seen_filings_json d)
                           (Some df_all) (corp_codes_json d));;
    log INFO (MsgCsvSaved (length df_new))
  else raise OSError.


(** The table row [send_email] builds for a filing; the three fields are
    read with [f[...]]. *)
Definition email_row (f : filing) : M string :=
  name ← subscript "corp_name" (corp_name f);
  title ← subscript "report_nm" (report_nm f);
  date ← subscript "rcept_dt" (rcept_dt f);
  mret ("<tr><td>" +:+ name +:+ "</td><td>" +:+ title +:+ "</td><td>" +:+ date
        +:+ "</td><td><a href='" +:+ filing_url f +:+ "'>View on DART</a></td></tr>"
        +:+ PyStr.newline).

(** [send_email]: skipped unless sender, password and recipients are all
    set; the rows are built before the [try], the SMTP session runs inside
    it. *)
Definition send_email (e : env) (new_filings : list filing) : M unit :=
  tell (Call EMAIL new_filings);;
  if decide (EMAIL_SENDER e = "" ∨ EMAIL_PASSWORD e = "" ∨ EMAIL_TO e = "") then
    log INFO MsgEmailSkipped
  else
    let recipients := PyStr.strip <$> PyStr.split "," (EMAIL_TO e) in
    rows ← foldM (λ rows f, r ← email_row f; mret (rows +:+ r)) new_filings "";
    try_except
      (tell SmtpConnect;;
       match smtp e with
       | SmtpNoConnection => raise ConnectionError
       | SmtpLoginRefused =>
           tell (SmtpLogin (EMAIL_SENDER e));; raise SMTPException
       | SmtpSendRefused =>
           tell (SmtpLogin (EMAIL_SENDER e));;
           tell (SmtpSendmail (EMAIL_SENDER e) recipients rows new_filings);;
           raise SMTPException
       | SmtpAccepted =>
           tell (SmtpLogin (EMAIL_SENDER e));;
           tell (SmtpSendmail (EMAIL_SENDER e) recipients rows new_filings);;
           log INFO (MsgEmailSent recipients)
       end)
      (λ ex, log ERROR (MsgEmailFailed ex)).

(** The text of the section block [send_slack] builds for a filing. *)
Definition slack_block (f : filing) : M string :=
  let url := filing_url f in
  name ← subscript "corp_name" (corp_name f);
  title ← subscript "report_nm" (report_nm f);
  date ← subscript "rcept_dt" (rcept_dt f);
  mret ("*" +:+ name +:+ "*" +:+ PyStr.newline +:+ "> " +:+ title +:+ PyStr.newline
        +:+ "> Filed: " +:+ date +:+ PyStr.newline +:+ "> <" +:+ url
        +:+ "|View on DART>").

(** [send_slack]: skipped without a webhook; the blocks are built before
    the [try], the request is made inside it. *)
Definition send_slack (e : env) (new_filings : list filing) : M unit :=
  tell (Call SLACK new_filings);;
  if decide (SLACK_WEBHOOK e = "") then mret ()
  else
    blocks ← foldM (λ blocks f, b ← slack_block f; mret (blocks ++ [b]))
                   new_filings [];
    try_except
      (tell (PostSlack (SLACK_WEBHOOK e) blocks new_filings);;
       match slack e with
       | PostUnreachable => raise ConnectionError
       | PostHttpError => raise HTTPError
       | PostAccepted => log INFO MsgSlackSent
       end)
      (λ ex, log ERROR (MsgSlackFailed ex)).

(** Lines 330-367 of [run]: the companies and the seen set are loaded, the
    companies checked in turn, the seen set saved.  The value is
    [new_filings]. *)
Definition find_new_filings (e : env) : M (list filing) :=
  companies ← load_companies;
  log INFO (MsgMonitoring (length companies));;
  seen ← load_seen;
  '(seen', new_filings) ← foldM (check_company e) companies (seen, []);
  save_seen seen';;
  mret new_filings.

(** Lines 369-375 of [run]: the three sinks, when there is anything new. *)
Definition dispatch (e : env) (new_filings : list filing) : M unit :=
  match new_filings with
  | _ :: _ =>
      log INFO (MsgFound (length new_filings));;
      save_to_csv e new_filings;;
      send_email e new_filings;;
      send_slack e new_filings
  | [] => log INFO MsgNoneFound
  end.

Definition run (e : env) : M unit :=
  log INFO MsgRule;;
  log INFO MsgStarting;;
  log INFO MsgRule;;
  if decide (DART_API_KEY e = API_KEY_PLACEHOLDER) then
    log ERROR MsgNoApiKey
  else
    new_filings ← find_new_filings e;
    dispatch e new_filings;;
    log INFO MsgDone.

(** One process per run: the files are what the previous run left, the
    request counter starts at zero. *)
Definition run_on (e : env) (d : files) : outcome unit := run e (State d 0).

(** The outcomes of a sequence of runs, each under its own settings and
    surroundings, on the files the one before left. *)
Fixpoint runs (es : list env) (d : files) : list (outcome unit) :=
  match es with
  | [] => []
  | e :: es' => let o := run_on e d in o :: runs es' (disk (post o))
  end.


(* ------------------------------------------------------------------ *)
(** ** Vocabulary of the properties *)
(* ------------------------------------------------------------------ *)

(** The key under which [run] records a filing in the seen set:
    [filing.get("rcept_no", "")]. *)
Definition seen_key (f : filing) : string := get_or_empty (rcept_no f).

(** The seen set a run starts from, as [load_seen] reads it. *)
Definition persisted_seen (d : files) : gset string :=
  list_to_set (default [] (seen_filings_json d)).

(** The companies a run checks, as [load_companies] reads them. *)
Definition companies_of (d : files) : list string :=
  match companies_txt d with
  | None => BUILT_IN_COMPANIES
  | Some lines =>
      filter (λ line, line ≠ "" ∧ PyStr.startswith "#" line = false)
             (PyStr.strip <$> lines)
  end.

(** The filings the fetcher returns across the companies [cs], in order,
    from state [s] on: those of each company that resolves to a non-empty
    corp code.  An exception of the resolver ends the run. *)
Fixpoint fetched (e : env) (cs : list string) (s : state) : result (list filing) :=
  match cs with
  | [] => Ok []
  | company :: cs' =>
      let o := get_corp_code e company s in
      match res o with
      | Raise ex => Raise ex
      | Ok None => fetched e cs' (post o)
      | Ok (Some code) =>
          if decide (code = "") then fetched e cs' (post o)
          else
            let o' := search_filings e code (bgn_de e) (end_de e) (post o) in
            match res o' with
            | Raise ex => Raise ex
            | Ok filings =>
                match fetched e cs' (post o') with
                | Ok rest => Ok (filings ++ rest)
                | Raise ex => Raise ex
                end
            end
      end
  end.

(** The identifier cache exists and is younger than seven days. *)
Definition fresh_cache (e : env) (d : files) : Prop :=
  ∃ mtime corp_map,
    corp_codes_json d = Some (mtime, corp_map) ∧ now e - mtime < SEVEN_DAYS.

(** The loop over the filings without its log lines. *)
Definition scan_step (acc : gset string * list filing) (f : filing)
  : gset string * list filing :=
  if decide (seen_key f ∈ acc.1) then acc
  else if is_value_up_filing f then ({[ seen_key f ]} ∪ acc.1, acc.2 ++ [f])
  else ({[ seen_key f ]} ∪ acc.1, acc.2).

Definition scan (filings : list filing) (acc : gset string * list filing)
  : gset string * list filing :=
  fold_left scan_step filings acc.

(** The new matches among [filings], which follow the filings [before] in
    the run: a filing is taken when its title matches, its key is not in
    [S], and no filing before it in the run has its key. *)
Fixpoint select (S : gset string) (before filings : list filing) : list filing :=
  match filings with
  | [] => []
  | f :: rest =>
      (if decide ((seen_key f ∉ S) ∧ (seen_key f ∉ seen_key <$> before))
       then if is_value_up_filing f then [f] else []
       else [])
      ++ select S (before ++ [f]) rest
  end.

Definition new_matches (S : gset string) (filings : list filing) : list filing :=
  select S [] filings.

(** The new matches as the specification words them: the filings whose
    receipt identifier is not in [S] and whose title matches. *)
Definition new_matches_as_specified (S : gset string) (filings : list filing)
  : list filing :=
  filter (λ f, (seen_key f ∉ S) ∧ is_value_up_filing f = true) filings.

(** The contribution of one disclosure type to the result of
    [search_filings]: the list of a success answer, nothing otherwise. *)
Definition category_result (r : response) : list filing :=
  match r with
  | RJson status _ list_ =>
      if decide (status = Some "000") then default [] list_ else []
  | _ => []
  end.

(** What one turn of the loop of [search_filings] shows: the request, and
    a log line unless the answer is a success or "no results". *)
Definition category_events (corp_code bgn_de end_de pblntf_ty : string) (r : response)
  : list event :=
  GetListJson corp_code bgn_de end_de pblntf_ty ::
  match r with
  | RUnreachable => [Log ERROR (MsgSearchError corp_code pblntf_ty ConnectionError)]
  | RHttpError => [Log ERROR (MsgSearchError corp_code pblntf_ty HTTPError)]
  | RMalformed => [Log ERROR (MsgSearchError corp_code pblntf_ty JSONDecodeError)]
  | RJson status message _ =>
      if decide (status = Some "000") then []
      else if decide (status = Some "013") then []
      else [Log WARNING (MsgApiStatus status message)]
  end.

(** The filings an event hands to a sink. *)
Definition filings_of (ev : event) : list filing :=
  match ev with
  | Call _ new_filings => new_filings
  | SmtpSendmail _ _ _ new_filings => new_filings
  | PostSlack _ _ new_filings => new_filings
  | _ => []
  end.

(** An event that hands no filing to a sink. *)
Definition quiet (ev : event) : Prop := filings_of ev = [].

(** An event of the work before the sinks: a log line, a file access or a
    request to the DART API. *)
Definition backstage (ev : event) : Prop :=
  match ev with
  | Log _ _ | FsRead _ | FsWrite _ | GetCorpCodeXml | GetListJson _ _ _ _ => True
  | _ => False
  end.

(** An event that hands a sink no filing outside [new_filings]. *)
Definition hands_only (new_filings : list filing) (ev : event) : Prop :=
  filings_of ev ⊆ new_filings.

(** The calls of the sinks among the events, in order. *)
Definition calls (evs : list event) : list (sink * list filing) :=
  omap (λ ev, match ev with Call k new_filings => Some (k, new_filings) | _ => None end)
       evs.

(** The filings whose three fields [send_email] and [send_slack] read
    with [f[...]] are present. *)
Definition has_display_fields (f : filing) : Prop :=
  is_Some (corp_name f) ∧ is_Some (report_nm f) ∧ is_Some (rcept_dt f).

(** The first lines of the log of every run. *)
Definition banner : list event :=
  [Log INFO MsgRule; Log INFO MsgStarting; Log INFO MsgRule].

(** Every event of [m], from any state, satisfies [P]. *)
Definition emits {A : Type} (P : event → Prop) (m : M A) : Prop :=
  ∀ s, Forall P (out (m s)).

(** [m] takes the files from any state to files related by [R]. *)
Definition keeps {A : Type} (R : relation files) (m : M A) : Prop :=
  ∀ s, R (disk s) (disk (post (m s))).

(** [m] leaves the state as it is. *)
Definition stateless {A : Type} (m : M A) : Prop := ∀ s, post (m s) = s.

(** The files differ at most in the identifier cache. *)
Definition same_but_cache (d d' : files) : Prop :=
  companies_txt d' = companies_txt d ∧
  seen_filings_json d' = seen_filings_json d ∧
  value_up_filings_csv d' = value_up_filings_csv d.

(** The seen file is as it was. *)
Definition same_seen (d d' : files) : Prop :=
  seen_filings_json d' = seen_filings_json d.

(** The ledger is as it was. *)
Definition same_csv (d d' : files) : Prop :=
  value_up_filings_csv d' = value_up_filings_csv d.

(** The persisted seen set has not lost an identifier. *)
Definition seen_grows (d d' : files) : Prop :=
  persisted_seen d ⊆ persisted_seen d'.

(** The receipt cells of a table. *)
Definition receipts (df : list Csv.row) : list Csv.cell := Csv.receipt_no <$> df.


(* ------------------------------------------------------------------ *)
(** ** Concrete runs *)
(* ------------------------------------------------------------------ *)

(** The run of the specification's example: the seen file holds "A1", the
    company list names one company, the identifier cache is built from the
    example listing, and the fetcher returns three filings of which only
    the third has a matching title.  The names and codes of the examples
    have no cased character outside ASCII, so [str.lower] is [PyStr.lower]
    on them. *)
Definition filing_A1 : filing :=
  Filing (Some "Acme Corp") (Some "012345") (Some "사업보고서")
         (Some "20240102") (Some "A1").
Definition filing_A2 : filing :=
  Filing (Some "Acme Corp") (Some "012345") (Some "분기보고서")
         (Some "20240515") (Some "A2").
Definition filing_A3 : filing :=
  Filing (Some "Acme Corp") (Some "012345") (Some "기업가치제고계획(자율공시)")
         (Some "20240520") (Some "A3").

Definition example_files : files :=
  Files (Some ["Acme Corp"]) (Some ["A1"]) None None.

Definition example_env : env :=
  Env "0123456789abcdef" "" "" "" ""
      1716200000 "20240221" "20240521" "2024-05-21"
      (DlListing example_listing)
      (λ n, match n with
            | O => RJson (Some "000") (Some "정상") (Some [filing_A1; filing_A2; filing_A3])
            | _ => RJson (Some "013") (Some "조회된 데이타가 없습니다.") None
            end)
      Some true SmtpAccepted PostAccepted PyStr.lower.

(** Two filings that carry no receipt number: a report that does not
    match, then a value-up plan. *)
Definition filing_unnumbered_report : filing :=
  Filing (Some "Acme Corp") (Some "012345") (Some "사업보고서") (Some "20240102") None.
Definition filing_unnumbered_plan : filing :=
  Filing (Some "Acme Corp") (Some "012345") (Some "기업가치제고계획")
         (Some "20240520") None.

Definition unnumbered_files : files :=
  Files (Some ["Acme Corp"]) None None None.

Definition unnumbered_env : env :=
  Env "0123456789abcdef" "" "" "" ""
      1716200000 "20240221" "20240521" "2024-05-21"
      (DlListing example_listing)
      (λ n, match n with
            | O => RJson (Some "000") (Some "정상")
                         (Some [filing_unnumbered_report; filing_unnumbered_plan])
            | _ => RJson (Some "013") (Some "조회된 데이타가 없습니다.") None
            end)
      Some true SmtpAccepted PostAccepted PyStr.lower.

(** Variations of the example run: the same company, cache listing and
    dates, with the settings, the filings of the first answer and the
    behaviour of the sinks' surroundings given. *)
Definition example_env_with (api_key sender password recipients webhook : string)
    (filings : list filing) (csv_ok : bool) (mail : smtp_outcome)
    (hook : post_outcome) : env :=
  Env api_key sender password recipients webhook
      1716200000 "20240221" "20240521" "2024-05-21"
      (DlListing example_listing)
      (λ n, match n with
            | O => RJson (Some "000") (Some "정상") (Some filings)
            | _ => RJson (Some "013") (Some "조회된 데이타가 없습니다.") None
            end)
      Some csv_ok mail hook PyStr.lower.

Definition example_webhook : string :=
  "https://hooks.slack.com/services/T000/B000/XXXX".

(** All three sinks configured and working. *)
Definition notifying_env : env :=
  example_env_with "0123456789abcdef" "alerts@example.com" "app-password"
                   "ops@example.com, desk@example.com" example_webhook
                   [filing_A1; filing_A2; filing_A3] true SmtpAccepted PostAccepted.

(** The ledger cannot be written (the file is open elsewhere, say). *)
Definition csv_locked_env : env :=
  example_env_with "0123456789abcdef" "alerts@example.com" "app-password"
                   "ops@example.com, desk@example.com" example_webhook
                   [filing_A1; filing_A2; filing_A3] false SmtpAccepted PostAccepted.

(** The mail server refuses the message. *)
Definition smtp_refused_env : env :=
  example_env_with "0123456789abcdef" "alerts@example.com" "app-password"
                   "ops@example.com, desk@example.com" example_webhook
                   [filing_A1; filing_A2; filing_A3] true SmtpSendRefused PostAccepted.


(** The API key was left at its placeholder. *)
Definition placeholder_env : env :=
  example_env_with API_KEY_PLACEHOLDER "alerts@example.com" "app-password"
                   "ops@example.com" example_webhook
                   [filing_A1; filing_A2; filing_A3] true SmtpAccepted PostAccepted.

(** A later run in which a further value-up plan has been filed. *)
Definition filing_A4 : filing :=
  Filing (Some "Acme Corp") (Some "012345") (Some "[기재정정]기업가치제고계획")
         (Some "20240610") (Some "A4").

Definition later_env : env :=
  example_env_with "0123456789abcdef" "alerts@example.com" "app-password"
                   "ops@example.com, desk@example.com" example_webhook
                   [filing_A4; filing_A3] true SmtpAccepted PostAccepted.

(** No file has been written yet. *)
Definition fresh_files : files := Files None None None None.

(** A value-up plan under a receipt number as DART issues them, fourteen
    digits; the ledger a run has written for it, every cell a string; and
    that ledger as [pd.read_csv] returns it from the file, with the
    columns of digits typed as integers (the stock code loses its leading
    zero) and the others left as strings. *)
Definition filing_numbered_plan : filing :=
  Filing (Some "Acme Corp") (Some "012345") (Some "기업가치제고계획")
         (Some "20240520") (Some "20240520000123").

Definition ledger_as_written : list Csv.row :=
  [ Csv.Row (Csv.CStr "Acme Corp") (Csv.CStr "012345") (Csv.CStr "기업가치제고계획")
            (Csv.CStr "20240520") (Csv.CStr "20240520000123")
            (Csv.CStr "https://dart.fss.or.kr/dsaf001/main.do?rcpNo=20240520000123")
            (Csv.CStr "2024-05-21") ].

Definition ledger_as_read : list Csv.row :=
  [ Csv.Row (Csv.CStr "Acme Corp") (Csv.CNum 12345) (Csv.CStr "기업가치제고계획")
            (Csv.CNum 20240520) (Csv.CNum 20240520000123)
            (Csv.CStr "https://dart.fss.or.kr/dsaf001/main.do?rcpNo=20240520000123")
            (Csv.CStr "2024-05-21") ].

(** The ledger is there and the seen file is not (it was removed, or the
    ledger was carried over from another copy of the script), so that the
    filing of the ledger is new to the run. *)
Definition carried_over_files : files :=
  Files (Some ["Acme Corp"]) None (Some ledger_as_written) None.

(** The surroundings of that run: the fetcher returns the filing, and
    pandas reads the ledger with its columns typed. *)
Definition retyping_env : env :=
  Env "0123456789abcdef" "" "" "" ""
      1716200000 "20240221" "20240521" "2024-05-21"
      (DlListing example_listing)
      (λ n, match n with
            | O => RJson (Some "000") (Some "정상") (Some [filing_numbered_plan])
            | _ => RJson (Some "013") (Some "조회된 데이타가 없습니다.") None
            end)
      (λ stored, if decide (stored = ledger_as_written) then Some ledger_as_read
                 else Some stored)
      true SmtpAccepted PostAccepted PyStr.lower.

(** The same surroundings, had pandas left every cell the string that was
    written. *)
Definition untyped_env : env :=
  Env "0123456789abcdef" "" "" "" ""
      1716200000 "20240221" "20240521" "2024-05-21"
      (DlListing example_listing)
      (λ n, match n with
            | O => RJson (Some "000") (Some "정상") (Some [filing_numbered_plan])
            | _ => RJson (Some "013") (Some "조회된 데이타가 없습니다.") None
            end)
      Some true SmtpAccepted PostAccepted PyStr.lower.

(** The password is missing from the e-mail settings, a webhook is set,
    and the fetcher returns a value-up plan whose record has no company
    name. *)
Definition filing_nameless_plan : filing :=
  Filing None (Some "012345") (Some "기업가치제고계획") (Some "20240520") (Some "A5").


(* ------------------------------------------------------------------ *)
(** ** Vocabulary of the further properties *)
(* ------------------------------------------------------------------ *)

(** A string of ASCII characters, and what is known of [str.lower] on
    such strings: it maps [A]..[Z] to [a]..[z] and nothing else. *)
Definition is_ascii (s : string) : bool :=
  forallb (λ c, (N_of_ascii c <? 128)%N) (list_ascii_of_string s).

Definition lowers_ascii (lower : string → string) : Prop :=
  ∀ s, is_ascii s = true → lower s = PyStr.lower s.

(** The corp code of a listing item as the loop of [get_corp_code] reads
    it, and the two keys it is stored under when it is not empty. *)
Definition item_code (item : corp_item) : string :=
  PyStr.strip (default "" (item_corp_code item)).

Definition item_keys (lower : string → string) (item : corp_item) : list string :=
  [ lower (PyStr.strip (default "" (item_corp_name item)));
    lower (PyStr.strip (default "" (item_stock_code item))) ].

(** The API cannot be reached. *)
Definition offline_env : env :=
  Env "0123456789abcdef" "alerts@example.com" "app-password"
      "ops@example.com" example_webhook
      1716200000 "20240221" "20240521" "2024-05-21"
      DlUnreachable (λ _, RUnreachable) Some true SmtpAccepted PostAccepted
      PyStr.lower.

(** The files a sequence of runs leaves behind. *)
Fixpoint files_after (es : list env) (d : files) : files :=
  match es with
  | [] => d
  | e :: es' => files_after es' (disk (post (run_on e d)))
  end.

(** The e-mail sink is configured: sender, password and recipients are
    all set. *)
Definition email_configured (e : env) : Prop :=
  EMAIL_SENDER e ≠ "" ∧ EMAIL_PASSWORD e ≠ "" ∧ EMAIL_TO e ≠ "".

(** What the SMTP session of [send_email] shows once it has connected,
    by what the mail server does: the failure is logged, or the message
    sent and that logged. *)
Definition smtp_session (e : env) (recipients : list string) (rows : string)
    (new_filings : list filing) : list event :=
  match smtp e with
  | SmtpNoConnection => [Log ERROR (MsgEmailFailed ConnectionError)]
  | SmtpLoginRefused =>
      [SmtpLogin (EMAIL_SENDER e); Log ERROR (MsgEmailFailed SMTPException)]
  | SmtpSendRefused =>
      [SmtpLogin (EMAIL_SENDER e);
       SmtpSendmail (EMAIL_SENDER e) recipients rows new_filings;
       Log ERROR (MsgEmailFailed SMTPException)]
  | SmtpAccepted =>
      [SmtpLogin (EMAIL_SENDER e);
       SmtpSendmail (EMAIL_SENDER e) recipients rows new_filings;
       Log INFO (MsgEmailSent recipients)]
  end.

(** What the request of [send_slack] shows: the one POST, and its
    success or its failure logged. *)
Definition slack_post (e : env) (blocks : list string) (new_filings : list filing)
  : list event :=
  [PostSlack (SLACK_WEBHOOK e) blocks new_filings;
   match slack e with
   | PostUnreachable => Log ERROR (MsgSlackFailed ConnectionError)
   | PostHttpError => Log ERROR (MsgSlackFailed HTTPError)
   | PostAccepted => Log INFO MsgSlackSent
   end].


(** An event other than the call of a sink. *)
Definition no_call (ev : event) : Prop :=
  match ev with Call _ _ => False | _ => True end.



(** The keywords without "기업가치제고계획", which contains the first
    keyword. *)
Definition KEYWORDS_WITHOUT_PLAN : list string :=
  [ "기업가치제고"; "밸류업"; "value up"; "value-up"; "기업가치 제고" ].

(** The prefix of every viewer URL. *)
Definition VIEWER_URL : string := "https://dart.fss.or.kr/dsaf001/main.do?rcpNo=".

(* ================================================================== *)
(** * Properties *)
(* ================================================================== *)

(* ------------------------------------------------------------------ *)
(** ** Facts about the string operations *)
(* ------------------------------------------------------------------ *)

Section string_facts.
Import PyStr.

Lemma app_nil_l_str (s : string) : "" +:+ s = s.
Proof. reflexivity. Qed.

Lemma app_cons_str (c : ascii) (s t : string) :
  String c s +:+ t = String c (s +:+ t).
Proof. reflexivity. Qed.

Lemma app_nil_r_str (s : string) : s +:+ "" = s.
Proof. induction s as [|c s IH]; [done|]. by rewrite app_cons_str, IH. Qed.

Lemma app_assoc_str (s t u : string) : (s +:+ t) +:+ u = s +:+ t +:+ u.
Proof.
  induction s as [|c s IH]; [done|]. by rewrite !app_cons_str, IH.
Qed.

Lemma lower_app (s t : string) : lower (s +:+ t) = lower s +:+ lower t.
Proof.
  induction s as [|c s IH]; [done|].
  rewrite app_cons_str. simpl. by rewrite IH, app_cons_str.
Qed.

(** A split of [lower s] comes from a split of [s]. *)
Lemma lower_app_inv (s x y : string) :
  lower s = x +:+ y → ∃ s1 s2, s = s1 +:+ s2 ∧ lower s1 = x ∧ lower s2 = y.
Proof.
  revert s. induction x as [|c x IH]; intros s Hs.
  - exists "", s. by rewrite !app_nil_l_str in *.
  - destruct s as [|d s]; [discriminate|].
    rewrite app_cons_str in Hs. simpl in Hs. injection Hs as Hc Hs.
    destruct (IH _ Hs) as (s1 & s2 & -> & H1 & H2).
    exists (String d s1), s2. simpl. by rewrite app_cons_str, H1, Hc.
Qed.

Lemma startswith_spec (p s : string) :
  startswith p s = true ↔ ∃ post, s = p +:+ post.
Proof.
  revert s. induction p as [|a p IH]; intros s; simpl.
  - split; [intros _; by exists s|done].
  - destruct s as [|b s].
    + split; [done|]. intros [post H]. by rewrite app_cons_str in H.
    + case_decide as Hab.
      * subst b. rewrite IH. split; intros [post H]; exists post.
        -- by rewrite app_cons_str, H.
        -- rewrite app_cons_str in H. by injection H.
      * split; [done|]. intros [post H]. rewrite app_cons_str in H.
        injection H as ? _. by subst.
Qed.

Lemma contains_spec (sub s : string) :
  contains sub s = true ↔ substring_of sub s.
Proof.
  unfold substring_of. induction s as [|c s IH].
  - simpl. rewrite orb_false_r, startswith_spec. split.
    + intros [post H]. by exists "", post.
    + intros (pre & post & H). destruct pre as [|d pre].
      * by exists post.
      * by rewrite app_cons_str in H.
  - cbn [contains]. rewrite orb_true_iff, startswith_spec, IH. split.
    + intros [[post H]|(pre & post & H)].
      * by exists "", post.
      * exists (String c pre), post. by rewrite app_cons_str, H.
    + intros (pre & post & H). destruct pre as [|d pre].
      * left. by exists post.
      * right. rewrite app_cons_str in H. injection H as _ H.
        by exists pre, post.
Qed.

Lemma contains_lower_ci (kw title : string) :
  contains (lower kw) (lower title) = true ↔ contains_ci kw title.
Proof.
  rewrite contains_spec. unfold substring_of, contains_ci. split.
  - intros (x & y & H).
    destruct (lower_app_inv _ _ _ H) as (pre & rest & -> & _ & Hrest).
    destruct (lower_app_inv _ _ _ Hrest) as (mid & post & -> & Hmid & _).
    by exists pre, mid, post.
  - intros (pre & mid & post & -> & Hmid).
    exists (lower pre), (lower post). by rewrite !lower_app, Hmid.
Qed.

End string_facts.

(* ------------------------------------------------------------------ *)
(** ** The classifier *)
(* ------------------------------------------------------------------ *)

(** C4: [is_value_up_filing] answers true exactly when the report title
    (the empty string when the record has none) contains one of the
    keywords of [VALUE_UP_KEYWORDS], at any position and up to case. *)
Theorem is_value_up_filing_iff (f : filing) :
  is_value_up_filing f = true ↔
  ∃ kw, kw ∈ VALUE_UP_KEYWORDS ∧ contains_ci kw (get_or_empty (report_nm f)).
Proof.
  unfold is_value_up_filing, get_or_empty. rewrite existsb_exists. split.
  - intros (kw & Hin & Hc). exists kw. split.
    + by apply list_elem_of_In.
    + by apply contains_lower_ci.
  - intros (kw & Hin & Hc). exists kw. split.
    + by apply list_elem_of_In.
    + by apply contains_lower_ci.
Qed.

Section corp_map_facts.
Import PyStr.

Lemma first_partial_hit (q : string) (pre post : list (string * string))
      (key code : string) :
  (∀ k c, (k, c) ∈ pre → ¬ substring_of q k) →
  substring_of q key →
  first_partial q (pre ++ (key, code) :: post) = Some code.
Proof.
  intros Hpre Hkey. induction pre as [|[k c] pre IH]; simpl.
  - apply contains_spec in Hkey. by rewrite Hkey.
  - destruct (contains q k) eqn:Hk.
    + apply contains_spec in Hk. exfalso. eapply Hpre; [|done]. by left.
    + apply IH. intros k' c' Hin. apply (Hpre k' c'). by right.
Qed.

Lemma first_partial_miss (q : string) (m : list (string * string)) :
  (∀ k c, (k, c) ∈ m → ¬ substring_of q k) → first_partial q m = None.
Proof.
  intros Hm. induction m as [|[k c] m IH]; [done|]. simpl.
  destruct (contains q k) eqn:Hk.
  - apply contains_spec in Hk. exfalso. eapply Hm; [|done]. by left.
  - apply IH. intros k' c' Hin. apply (Hm k' c'). by right.
Qed.

(** On a dict (no key twice) [Dict.get] returns the value stored under
    the key. *)
Lemma dict_get_elem_of (k v : string) (d : list (string * string)) :
  NoDup d.*1 → (Dict.get k d = Some v ↔ (k, v) ∈ d).
Proof.
  induction d as [|[k' v'] d IH]; simpl; intros Hnd.
  - split; [done|]. by intros ?%elem_of_nil.
  - apply NoDup_cons in Hnd as [Hk' Hnd]. case_decide as Hk.
    + subst k'. split.
      * intros [= ->]. by left.
      * intros [[= ->]|Hin]%elem_of_cons; [done|].
        exfalso. apply Hk'. apply list_elem_of_fmap. by exists (k, v).
    + rewrite IH by done. split.
      * intros Hin. by right.
      * intros [[= -> ->]|Hin]%elem_of_cons; [done|done].
Qed.

End corp_map_facts.

(** The dict built from a listing depends on [lower] through the stripped
    names and stock codes only. *)
Lemma build_corp_map_ext (lower lower' : string → string) (items : list corp_item) :
  Forall (λ item,
            lower (PyStr.strip (default "" (item_corp_name item)))
            = lower' (PyStr.strip (default "" (item_corp_name item))) ∧
            lower (PyStr.strip (default "" (item_stock_code item)))
            = lower' (PyStr.strip (default "" (item_stock_code item)))) items →
  build_corp_map lower items = build_corp_map lower' items.
Proof.
  intros Hitems. unfold build_corp_map.
  generalize ([] : list (string * string)).
  induction Hitems as [|item items [Hname Hstock] _ IH]; intros acc; [done|].
  cbn [fold_left]. rewrite Hname, Hstock. apply IH.
Qed.

Lemma example_corp_map (lower : string → string) :
  lowers_ascii lower →
  build_corp_map lower example_listing = build_corp_map PyStr.lower example_listing.
Proof.
  intros Hlower. apply build_corp_map_ext.
  repeat constructor; cbn [item_corp_name item_stock_code default];
    by apply Hlower.
Qed.

Lemma search_corp_map_ext (lower lower' : string → string) corp_map query :
  lower (PyStr.strip query) = lower' (PyStr.strip query) →
  _search_corp_map lower corp_map query = _search_corp_map lower' corp_map query.
Proof. intros Hq. unfold _search_corp_map. by rewrite Hq. Qed.

Lemma lowers_ascii_lower : lowers_ascii PyStr.lower.
Proof. by intros s _. Qed.

(** C6 (as amended): the query is stripped of surrounding whitespace and
    lower-cased, as [str.strip] and [str.lower] do it; the value under
    exactly that key is returned when the key is present; otherwise the
    value of the first item, in insertion order, whose key contains it as
    a substring; otherwise nothing.  On the cache built from the example
    listing, "acme corp" resolves to "00012345", "098765" to "00098765"
    and "nonexistent" to nothing. *)
Theorem search_corp_map_policy (lower : string → string)
    (corp_map : list (string * string)) (query : string) :
  let q := lower (PyStr.strip query) in
  (∀ code, Dict.get q corp_map = Some code →
           _search_corp_map lower corp_map query = Some code) ∧
  (Dict.get q corp_map = None →
   ∀ pre key code post,
     corp_map = pre ++ (key, code) :: post →
     PyStr.substring_of q key →
     (∀ k c, (k, c) ∈ pre → ¬ PyStr.substring_of q k) →
     _search_corp_map lower corp_map query = Some code) ∧
  (Dict.get q corp_map = None →
   (∀ k c, (k, c) ∈ corp_map → ¬ PyStr.substring_of q k) →
   _search_corp_map lower corp_map query = None) ∧
  (lowers_ascii lower →
   _search_corp_map lower (build_corp_map lower example_listing) "acme corp"
   = Some "00012345" ∧
   _search_corp_map lower (build_corp_map lower example_listing) "098765"
   = Some "00098765" ∧
   _search_corp_map lower (build_corp_map lower example_listing) "nonexistent"
   = None).
Proof.
  intros q. split_and!.
  - unfold _search_corp_map. fold q. by intros code ->.
  - unfold _search_corp_map. fold q.
    intros -> pre key code post -> Hkey Hpre. by apply first_partial_hit.
  - unfold _search_corp_map. fold q. intros -> Hnone. by apply first_partial_miss.
  - intros Hlower. rewrite example_corp_map by done.
    split_and!;
      (rewrite (search_corp_map_ext lower PyStr.lower) by (apply Hlower; reflexivity);
       reflexivity).
Qed.

(** C6 as worded fails on a query with surrounding whitespace: the code
    strips it and finds the exact key, where lower-casing alone finds
    neither the key nor a key containing the query. *)
Lemma search_corp_map_strips_query :
  lowers_ascii PyStr.lower ∧
  ∀ lower, lowers_ascii lower →
    _search_corp_map lower (build_corp_map lower example_listing) " acme corp"
    = Some "00012345" ∧
    resolve_as_specified lower (build_corp_map lower example_listing) " acme corp"
    = None.
Proof.
  split; [apply lowers_ascii_lower|]. intros lower Hlower.
  rewrite example_corp_map by done. split.
  - rewrite (search_corp_map_ext lower PyStr.lower) by (apply Hlower; reflexivity).
    reflexivity.
  - unfold resolve_as_specified. rewrite (Hlower " acme corp") by reflexivity.
    reflexivity.
Qed.

(* ------------------------------------------------------------------ *)
(** ** Reasoning about computations *)
(* ------------------------------------------------------------------ *)

Section monad_facts.
Context {A B : Type}.
Implicit Types (m : M A) (f : A → M B).

Lemma bind_unfold m f s :
  (m ≫= f) s =
  match res (m s) with
  | Ok a => let o' := f a (post (m s)) in
            Outcome (res o') (post o') (out (m s) ++ out o')
  | Raise ex => Outcome (Raise ex) (post (m s)) (out (m s))
  end.
Proof. reflexivity. Qed.

Lemma bind_ok m f s a :
  res (m s) = Ok a →
  (m ≫= f) s = Outcome (res (f a (post (m s)))) (post (f a (post (m s))))
                       (out (m s) ++ out (f a (post (m s)))).
Proof. intros H. by rewrite bind_unfold, H. Qed.

Lemma bind_raise m f s ex :
  res (m s) = Raise ex →
  (m ≫= f) s = Outcome (Raise ex) (post (m s)) (out (m s)).
Proof. intros H. by rewrite bind_unfold, H. Qed.

Lemma emits_bind P m f :
  emits P m → (∀ a, emits P (f a)) → emits P (m ≫= f).
Proof.
  intros Hm Hf s. rewrite bind_unfold. destruct (res (m s)); simpl.
  - apply Forall_app. split; [apply Hm|apply Hf].
  - apply Hm.
Qed.

Lemma keeps_bind (R : relation files) `{!PreOrder R} m f :
  keeps R m → (∀ a, keeps R (f a)) → keeps R (m ≫= f).
Proof.
  intros Hm Hf s. rewrite bind_unfold. destruct (res (m s)); simpl.
  - etrans; [apply Hm|apply Hf].
  - apply Hm.
Qed.

Lemma stateless_bind m f :
  stateless m → (∀ a, stateless (f a)) → stateless (m ≫= f).
Proof.
  intros Hm Hf s. rewrite bind_unfold. destruct (res (m s)); simpl.
  - by rewrite Hf, Hm.
  - apply Hm.
Qed.

End monad_facts.

Section monad_facts_one.
Context {A : Type}.
Implicit Types (m : M A) (P : event → Prop) (R : relation files).

Lemma emits_ret P (a : A) : emits P (mret a).
Proof. intros s. constructor. Qed.

Lemma emits_raise P ex : emits P (raise ex : M A).
Proof. intros s. constructor. Qed.

Lemma emits_try P m (h : exn → M A) :
  emits P m → (∀ ex, emits P (h ex)) → emits P (try_except m h).
Proof.
  intros Hm Hh s. unfold try_except. destruct (res (m s)) eqn:E; simpl.
  - apply Hm.
  - apply Forall_app. split; [apply Hm|apply Hh].
Qed.

Lemma keeps_ret R `{!PreOrder R} (a : A) : keeps R (mret a).
Proof. intros s. reflexivity. Qed.

Lemma keeps_raise R `{!PreOrder R} ex : keeps R (raise ex : M A).
Proof. intros s. reflexivity. Qed.

Lemma keeps_try R `{!PreOrder R} m (h : exn → M A) :
  keeps R m → (∀ ex, keeps R (h ex)) → keeps R (try_except m h).
Proof.
  intros Hm Hh s. unfold try_except. destruct (res (m s)) eqn:E; simpl.
  - apply Hm.
  - etrans; [apply Hm|apply Hh].
Qed.

Lemma stateless_ret (a : A) : stateless (mret a).
Proof. by intros s. Qed.

Lemma stateless_keeps R `{!PreOrder R} m : stateless m → keeps R m.
Proof. intros Hm s. by rewrite Hm. Qed.

End monad_facts_one.

Lemma emits_tell P ev : P ev → emits P (tell ev).
Proof. intros H s. by repeat constructor. Qed.

Lemma emits_log P lv msg : P (Log lv msg) → emits P (log lv msg).
Proof. apply emits_tell. Qed.

Lemma emits_read_disk P : emits P read_disk.
Proof. intros s. constructor. Qed.

Lemma emits_write_disk P g : emits P (write_disk g).
Proof. intros s. constructor. Qed.

Lemma emits_next_request P : emits P next_request.
Proof. intros s. constructor. Qed.

Lemma emits_subscript P key field : emits P (subscript key field).
Proof. destruct field; [apply emits_ret|apply emits_raise]. Qed.

Lemma emits_foldM {A B : Type} P (f : B → A → M B) (l : list A) (b : B) :
  (∀ b a, emits P (f b a)) → emits P (foldM f l b).
Proof.
  intros Hf. revert b. induction l as [|a l IH]; intros b; simpl.
  - apply emits_ret.
  - apply emits_bind; [apply Hf|]. intros b'. apply IH.
Qed.

Lemma stateless_tell ev : stateless (tell ev).
Proof. by intros s. Qed.

Lemma stateless_log lv msg : stateless (log lv msg).
Proof. by intros s. Qed.

Lemma stateless_read_disk : stateless read_disk.
Proof. by intros s. Qed.

Lemma keeps_tell R `{!PreOrder R} ev : keeps R (tell ev).
Proof. intros s. reflexivity. Qed.

Lemma keeps_log R `{!PreOrder R} lv msg : keeps R (log lv msg).
Proof. intros s. reflexivity. Qed.

Lemma keeps_read_disk R `{!PreOrder R} : keeps R read_disk.
Proof. intros s. reflexivity. Qed.

Lemma keeps_next_request R `{!PreOrder R} : keeps R next_request.
Proof. intros s. reflexivity. Qed.

Lemma keeps_write_disk (R : relation files) g :
  (∀ d, R d (g d)) → keeps R (write_disk g).
Proof. intros H s. apply H. Qed.

Lemma keeps_subscript R `{!PreOrder R} key field : keeps R (subscript key field).
Proof. destruct field; [apply keeps_ret|apply keeps_raise]; done. Qed.

Lemma keeps_foldM {A B : Type} R `{!PreOrder R} (f : B → A → M B) (l : list A) (b : B) :
  (∀ b a, keeps R (f b a)) → keeps R (foldM f l b).
Proof.
  intros Hf. revert b. induction l as [|a l IH]; intros b; simpl.
  - by apply keeps_ret.
  - apply keeps_bind; [done|apply Hf|]. intros b'. apply IH.
Qed.

Lemma stateless_foldM {A B : Type} (f : B → A → M B) (l : list A) (b : B) :
  (∀ b a, stateless (f b a)) → stateless (foldM f l b).
Proof.
  intros Hf. revert b. induction l as [|a l IH]; intros b; simpl.
  - apply stateless_ret.
  - apply stateless_bind; [apply Hf|]. intros b'. apply IH.
Qed.

Global Instance same_but_cache_preorder : PreOrder same_but_cache.
Proof.
  split.
  - by intros d.
  - intros d1 d2 d3 (?&?&?) (?&?&?). unfold same_but_cache. split_and!; congruence.
Qed.

Global Instance seen_grows_preorder : PreOrder seen_grows.
Proof.
  split.
  - intros d. unfold seen_grows. set_solver.
  - intros d1 d2 d3 H1 H2. unfold seen_grows in *. set_solver.
Qed.

(** One step of a proof that a computation emits or keeps something:
    the sequencing, the primitive, or a case split on what is matched. *)
Ltac step_emits :=
  first
    [ apply emits_ret | apply emits_raise | apply emits_read_disk
    | apply emits_write_disk | apply emits_next_request | apply emits_subscript
    | apply emits_bind; [|intros ?]
    | apply emits_try; [|intros ?]
    | apply emits_foldM; intros ? ?
    | apply emits_tell | apply emits_log
    | match goal with
      | |- emits _ (match ?x with _ => _ end) => destruct x
      end ].

Ltac step_keeps :=
  first
    [ apply keeps_ret; apply _ | apply keeps_raise; apply _
    | apply keeps_read_disk; apply _ | apply keeps_next_request; apply _
    | apply keeps_subscript; apply _
    | apply keeps_tell; apply _ | apply keeps_log; apply _
    | apply keeps_bind; [apply _| |intros ?]
    | apply keeps_try; [apply _| |intros ?]
    | apply keeps_foldM; [apply _|intros ? ?]
    | match goal with
      | |- keeps _ (match ?x with _ => _ end) => destruct x
      end ].

(* ------------------------------------------------------------------ *)
(** ** The fetcher *)
(* ------------------------------------------------------------------ *)

Lemma emits_mono {A : Type} (P Q : event → Prop) (m : M A) :
  (∀ ev, P ev → Q ev) → emits P m → emits Q m.
Proof. intros HPQ Hm s. eapply Forall_impl; [apply Hm|done]. Qed.

Lemma search_category_unfold e corp_code bgn end_ all_filings ty s :
  let r := list_json e (requests_made s) in
  search_category e corp_code bgn end_ all_filings ty s =
  Outcome (Ok (all_filings ++ category_result r))
          (State (disk s) (S (requests_made s)))
          (category_events corp_code bgn end_ ty r).
Proof.
  intros r. unfold search_category, try_except, category_events, category_result.
  rewrite bind_unfold. cbn. fold r.
  destruct r as [| | |status message list_]; cbn; try by rewrite ?app_nil_r.
  repeat case_decide; subst; cbn; by rewrite ?app_nil_r.
Qed.

Lemma search_filings_unfold e corp_code bgn end_ s :
  let n := requests_made s in
  search_filings e corp_code bgn end_ s =
  Outcome (Ok (category_result (list_json e n) ++ category_result (list_json e (S n))))
          (State (disk s) (S (S n)))
          (category_events corp_code bgn end_ "A" (list_json e n) ++
           category_events corp_code bgn end_ "B" (list_json e (S n))).
Proof.
  intros n. unfold search_filings. cbn [foldM].
  rewrite bind_unfold, search_category_unfold. cbn [res post out].
  rewrite bind_unfold, search_category_unfold. cbn.
  by rewrite app_nil_r.
Qed.

(** C7: [search_filings] never raises.  Its result is what the two
    disclosure types contribute, joined; both requests are made whatever
    the other comes to.  The status "013" contributes nothing and logs
    nothing; any other status but "000" contributes nothing and logs a
    warning; a request that raises (no connection, an HTTP error, a body
    that cannot be read) contributes nothing and logs an error.  The files
    are left alone. *)
Theorem search_filings_degrades (e : env) (corp_code bgn end_ : string) (s : state) :
  let n := requests_made s in
  let o := search_filings e corp_code bgn end_ s in
  res o = Ok (category_result (list_json e n) ++ category_result (list_json e (S n))) ∧
  out o = category_events corp_code bgn end_ "A" (list_json e n) ++
          category_events corp_code bgn end_ "B" (list_json e (S n)) ∧
  disk (post o) = disk s ∧
  (∀ ty message list_,
     category_result (RJson (Some "013") message list_) = [] ∧
     category_events corp_code bgn end_ ty (RJson (Some "013") message list_)
     = [GetListJson corp_code bgn end_ ty]) ∧
  (∀ ty status message list_,
     status ≠ Some "000" → status ≠ Some "013" →
     category_result (RJson status message list_) = [] ∧
     category_events corp_code bgn end_ ty (RJson status message list_)
     = [GetListJson corp_code bgn end_ ty; Log WARNING (MsgApiStatus status message)]) ∧
  (∀ ty r,
     r = RUnreachable ∨ r = RHttpError ∨ r = RMalformed →
     category_result r = [] ∧
     ∃ ex, category_events corp_code bgn end_ ty r
           = [GetListJson corp_code bgn end_ ty;
              Log ERROR (MsgSearchError corp_code ty ex)]).
Proof.
  intros n o. subst o. rewrite search_filings_unfold. fold n. cbn [res out post disk].
  split_and!; try done.
  - intros ty status message list_ H0 H13.
    unfold category_result, category_events. by rewrite !decide_False.
  - intros ty r [->|[->| ->]]; (split; [done|]); by eexists.
Qed.

(* ------------------------------------------------------------------ *)
(** ** The loop over the filings *)
(* ------------------------------------------------------------------ *)

Lemma process_filing_unfold acc f s :
  res (process_filing acc f s) = Ok (scan_step acc f) ∧
  post (process_filing acc f s) = s.
Proof.
  destruct acc as [seen new_filings].
  unfold process_filing, scan_step, seen_key. cbn [fst snd].
  rewrite bind_unfold. cbn [log tell res post out].
  case_decide; [done|]. by destruct (is_value_up_filing f).
Qed.

Lemma process_filings_unfold filings acc s :
  res (foldM process_filing filings acc s) = Ok (scan filings acc) ∧
  post (foldM process_filing filings acc s) = s.
Proof.
  revert acc s. induction filings as [|f filings IH]; intros acc s; [done|].
  cbn [foldM]. rewrite bind_unfold.
  destruct (process_filing_unfold acc f s) as [-> ->]. cbn.
  apply IH.
Qed.

Lemma emits_process_filing acc f : emits backstage (process_filing acc f).
Proof.
  destruct acc as [seen new_filings]. unfold process_filing.
  repeat step_emits; done.
Qed.

Lemma scan_app fs1 fs2 acc : scan (fs1 ++ fs2) acc = scan fs2 (scan fs1 acc).
Proof. apply fold_left_app. Qed.

(** The seen set after the loop holds what it held and the key of every
    filing met; the new matches are added at the end, chosen as [select]
    says. *)
Lemma scan_select S before filings new_filings :
  scan filings (S ∪ list_to_set (seen_key <$> before), new_filings) =
  (S ∪ list_to_set (seen_key <$> (before ++ filings)),
   new_filings ++ select S before filings).
Proof.
  revert before new_filings.
  induction filings as [|f rest IH]; intros before new_filings.
  - cbn. by rewrite !app_nil_r.
  - cbn [scan fold_left select]. unfold scan_step at 2. cbn [fst snd].
    assert (seen_key f ∈ S ∪ list_to_set (seen_key <$> before)
            ↔ ¬ ((seen_key f ∉ S) ∧ (seen_key f ∉ seen_key <$> before))) as Hin.
    { rewrite elem_of_union, elem_of_list_to_set.
      destruct (decide (seen_key f ∈ S)), (decide (seen_key f ∈ seen_key <$> before));
        naive_solver. }
    assert ({[seen_key f]} ∪ (S ∪ list_to_set (seen_key <$> before))
            = S ∪ list_to_set (seen_key <$> (before ++ [f]))) as Hadd.
    { rewrite fmap_app, list_to_set_app_L. cbn. set_solver. }
    assert (S ∪ list_to_set (seen_key <$> before)
            = S ∪ list_to_set (seen_key <$> (before ++ [f]))
            ∨ (seen_key f ∉ S) ∧ (seen_key f ∉ seen_key <$> before)) as Hcase.
    { destruct (decide (seen_key f ∈ S ∪ list_to_set (seen_key <$> before))) as [Hs|Hs].
      - left. rewrite <- Hadd. set_solver.
      - right. rewrite Hin in Hs.
        destruct (decide (seen_key f ∈ S)), (decide (seen_key f ∈ seen_key <$> before));
          naive_solver. }
    fold (scan rest).
    case_decide as Hseen.
    + rewrite decide_False by (by apply Hin). cbn [app].
      destruct Hcase as [Heq|Hnot]; [|by apply Hin in Hseen].
      rewrite Heq, IH. by rewrite <- app_assoc.
    + rewrite decide_True by (destruct Hcase as [Heq|?]; [|done];
                              exfalso; apply Hseen; rewrite Heq, <- Hadd; set_solver).
      destruct (is_value_up_filing f).
      * rewrite Hadd, IH. by rewrite <- !app_assoc.
      * rewrite Hadd, IH. by rewrite <- !app_assoc.
Qed.

Lemma scan_new_matches S filings :
  scan filings (S, []) = (S ∪ list_to_set (seen_key <$> filings), new_matches S filings).
Proof.
  pose proof (scan_select S [] filings []) as H. cbn in H.
  by rewrite (right_id_L ∅ (∪)) in H.
Qed.

(* ------------------------------------------------------------------ *)
(** ** The loop over the companies *)
(* ------------------------------------------------------------------ *)

Lemma emits_get_corp_code e company : emits backstage (get_corp_code e company).
Proof. unfold get_corp_code, refresh_corp_codes. repeat step_emits; done. Qed.

Lemma keeps_get_corp_code e company :
  keeps same_but_cache (get_corp_code e company).
Proof.
  unfold get_corp_code, refresh_corp_codes. repeat step_keeps.
  all: by apply keeps_write_disk.
Qed.

Lemma emits_search_filings e corp_code bgn end_ :
  emits backstage (search_filings e corp_code bgn end_).
Proof.
  intros s. rewrite search_filings_unfold. cbn [out].
  apply Forall_app. split; unfold category_events.
  all: destruct (list_json e _); repeat case_decide; by repeat constructor.
Qed.

Lemma keeps_search_filings e corp_code bgn end_ :
  keeps same_but_cache (search_filings e corp_code bgn end_).
Proof. intros s. by rewrite search_filings_unfold. Qed.

Lemma emits_check_company e acc company : emits backstage (check_company e acc company).
Proof.
  unfold check_company.
  apply emits_bind; [apply emits_get_corp_code|]. intros [code|].
  - case_decide.
    + repeat step_emits; done.
    + apply emits_bind; [by apply emits_log|]. intros _.
      apply emits_bind; [apply emits_search_filings|]. intros filings.
      apply emits_bind; [by apply emits_log|]. intros _.
      apply emits_foldM. intros. apply emits_process_filing.
  - repeat step_emits; done.
Qed.

Lemma stateless_process_filing acc f : stateless (process_filing acc f).
Proof. intros s. apply process_filing_unfold. Qed.

Lemma keeps_check_company e acc company :
  keeps same_but_cache (check_company e acc company).
Proof.
  unfold check_company.
  apply keeps_bind; [apply _|apply keeps_get_corp_code|]. intros [code|].
  - case_decide.
    + repeat step_keeps.
    + apply keeps_bind; [apply _|apply keeps_log; apply _|]. intros _.
      apply keeps_bind; [apply _|apply keeps_search_filings|]. intros filings.
      apply keeps_bind; [apply _|apply keeps_log; apply _|]. intros _.
      apply stateless_keeps; [apply _|].
      apply stateless_foldM. intros. apply stateless_process_filing.
  - repeat step_keeps.
Qed.

(** What one turn of the loop over the companies comes to, by what the
    resolver and the fetcher come to. *)
Lemma check_company_unfold e acc company s :
  let o := get_corp_code e company s in
  match res o with
  | Raise ex =>
      res (check_company e acc company s) = Raise ex ∧
      post (check_company e acc company s) = post o
  | Ok None =>
      res (check_company e acc company s) = Ok acc ∧
      post (check_company e acc company s) = post o
  | Ok (Some code) =>
      if decide (code = "") then
        res (check_company e acc company s) = Ok acc ∧
        post (check_company e acc company s) = post o
      else
        let o' := search_filings e code (bgn_de e) (end_de e) (post o) in
        ∃ filings, res o' = Ok filings ∧
                   res (check_company e acc company s) = Ok (scan filings acc) ∧
                   post (check_company e acc company s) = post o'
  end.
Proof.
  intros o. unfold check_company. rewrite bind_unfold. fold o.
  destruct (res o) as [[code|]|ex]; [|done..].
  case_decide; [done|].
  cbn zeta. rewrite bind_unfold. cbn [log tell res post out].
  rewrite bind_unfold, search_filings_unfold. cbn [res post out].
  eexists. split; [done|].
  rewrite bind_unfold. cbn [log tell res post out].
  match goal with
  | |- context [foldM process_filing ?fs acc ?s'] =>
      destruct (process_filings_unfold fs acc s') as [-> ->]
  end.
  done.
Qed.

Lemma companies_loop_fetched e companies acc s :
  res (foldM (check_company e) companies acc s) =
  match fetched e companies s with
  | Ok filings => Ok (scan filings acc)
  | Raise ex => Raise ex
  end.
Proof.
  revert acc s. induction companies as [|company companies IH]; intros acc s; [done|].
  cbn [foldM fetched]. rewrite bind_unfold.
  pose proof (check_company_unfold e acc company s) as H. cbn zeta in H.
  destruct (res (get_corp_code e company s)) as [[code|]|ex].
  - case_decide.
    + destruct H as [-> ->]. cbn. apply IH.
    + destruct H as (filings & -> & -> & ->). cbn. rewrite IH.
      destruct (fetched e companies _); [|done]. by rewrite scan_app.
  - destruct H as [-> ->]. cbn. apply IH.
  - by destruct H as [-> ->].
Qed.

(* ------------------------------------------------------------------ *)
(** ** Finding the new filings *)
(* ------------------------------------------------------------------ *)

Global Instance same_seen_preorder : PreOrder same_seen.
Proof. split; unfold same_seen; [done|]. intros d1 d2 d3. congruence. Qed.

Global Instance same_csv_preorder : PreOrder same_csv.
Proof. split; unfold same_csv; [done|]. intros d1 d2 d3. congruence. Qed.

Lemma keeps_weaken {A : Type} (R R' : relation files) (m : M A) :
  (∀ d d', R d d' → R' d d') → keeps R m → keeps R' m.
Proof. intros H Hm s. apply H, Hm. Qed.

Lemma load_companies_unfold s :
  res (load_companies s) = Ok (companies_of (disk s)) ∧ post (load_companies s) = s.
Proof.
  unfold load_companies, companies_of. rewrite bind_unfold. cbn.
  by destruct (companies_txt (disk s)).
Qed.

Lemma load_seen_unfold s :
  res (load_seen s) = Ok (persisted_seen (disk s)) ∧ post (load_seen s) = s.
Proof.
  unfold load_seen, persisted_seen. rewrite bind_unfold. cbn.
  by destruct (seen_filings_json (disk s)).
Qed.

Lemma save_seen_unfold seen s :
  save_seen seen s =
  Outcome (Ok ())
          (State (Files (companies_txt (disk s)) (Some (elements seen))
                        (value_up_filings_csv (disk s)) (corp_codes_json (disk s)))
                 (requests_made s))
          [FsWrite SEEN_FILE].
Proof. reflexivity. Qed.

Lemma emits_load_companies : emits backstage load_companies.
Proof. unfold load_companies. repeat step_emits; done. Qed.

Lemma emits_load_seen : emits backstage load_seen.
Proof. unfold load_seen. repeat step_emits; done. Qed.

Lemma emits_save_seen seen : emits backstage (save_seen seen).
Proof. unfold save_seen. repeat step_emits; done. Qed.

Lemma emits_find_new_filings e : emits backstage (find_new_filings e).
Proof.
  unfold find_new_filings.
  apply emits_bind; [apply emits_load_companies|]. intros companies.
  apply emits_bind; [by apply emits_log|]. intros _.
  apply emits_bind; [apply emits_load_seen|]. intros seen.
  apply emits_bind.
  - apply emits_foldM. intros. apply emits_check_company.
  - intros [seen' new_filings].
    apply emits_bind; [apply emits_save_seen|]. intros _. apply emits_ret.
Qed.

Lemma stateless_load_companies : stateless load_companies.
Proof. intros s. apply load_companies_unfold. Qed.

Lemma stateless_load_seen : stateless load_seen.
Proof. intros s. apply load_seen_unfold. Qed.

Lemma keeps_find_new_filings_csv e : keeps same_csv (find_new_filings e).
Proof.
  unfold find_new_filings.
  apply keeps_bind; [apply _|apply stateless_keeps, stateless_load_companies; apply _|].
  intros companies.
  apply keeps_bind; [apply _|apply keeps_log; apply _|]. intros _.
  apply keeps_bind; [apply _|apply stateless_keeps, stateless_load_seen; apply _|].
  intros seen.
  apply keeps_bind; [apply _| |].
  - apply keeps_foldM; [apply _|]. intros acc company.
    eapply keeps_weaken; [|apply keeps_check_company]. by intros d d' (_ & _ & ?).
  - intros [seen' new_filings]. unfold save_seen. repeat step_keeps.
    by apply keeps_write_disk.
Qed.

Lemma keeps_companies_loop e companies acc :
  keeps same_but_cache (foldM (check_company e) companies acc).
Proof. apply keeps_foldM; [apply _|]. intros. apply keeps_check_company. Qed.

(** What [find_new_filings] comes to, by what the fetcher returns across
    the companies: the new matches, with the seen set saved as what it was
    and the key of every filing met; or the exception of the resolver,
    with the seen file untouched. *)
Lemma find_new_filings_unfold e s :
  let S := persisted_seen (disk s) in
  let o := find_new_filings e s in
  match fetched e (companies_of (disk s)) s with
  | Ok filings =>
      res o = Ok (new_matches S filings) ∧
      persisted_seen (disk (post o)) = S ∪ list_to_set (seen_key <$> filings)
  | Raise ex =>
      res o = Raise ex ∧ seen_filings_json (disk (post o)) = seen_filings_json (disk s)
  end.
Proof.
  intros S o. subst o. unfold find_new_filings.
  rewrite bind_unfold. destruct (load_companies_unfold s) as [-> ->]. cbn zeta.
  rewrite bind_unfold. cbn [log tell res post out].
  rewrite bind_unfold. destruct (load_seen_unfold s) as [-> ->]. cbn zeta. fold S.
  rewrite bind_unfold, companies_loop_fetched.
  pose proof (keeps_companies_loop e (companies_of (disk s)) (S, []) s) as (_ & Hseen & _).
  destruct (fetched e (companies_of (disk s)) s) as [filings|ex].
  - rewrite scan_new_matches. cbn zeta.
    rewrite bind_unfold, save_seen_unfold. cbn.
    unfold persisted_seen. cbn. by rewrite list_to_set_elements_L.
  - done.
Qed.

Lemma select_distinct_keys S before filings :
  NoDup (seen_key <$> filings) →
  (∀ f, f ∈ filings → seen_key f ∉ seen_key <$> before) →
  select S before filings = new_matches_as_specified S filings.
Proof.
  unfold new_matches_as_specified.
  revert before. induction filings as [|f rest IH]; intros before Hnd Hbefore; [done|].
  cbn [select]. rewrite fmap_cons in Hnd. apply NoDup_cons in Hnd as [Hf Hnd].
  rewrite filter_cons, IH; [|done|].
  - assert (seen_key f ∉ seen_key <$> before) as Hfb by (apply Hbefore; by left).
    destruct (decide (seen_key f ∈ S)) as [HS|HS].
    + rewrite decide_False by tauto. rewrite decide_False by tauto. done.
    + rewrite decide_True by tauto. destruct (is_value_up_filing f) eqn:Hv.
      * rewrite decide_True by tauto. done.
      * rewrite decide_False; [done|]. intros [_ ?]. done.
  - intros g Hg. rewrite fmap_app, elem_of_app. intros [Hin|Hin].
    + eapply Hbefore; [|done]. by right.
    + cbn in Hin. apply list_elem_of_singleton in Hin.
      apply Hf. rewrite <- Hin. by apply list_elem_of_fmap_2.
Qed.

(* ------------------------------------------------------------------ *)
(** ** The sinks and the run *)
(* ------------------------------------------------------------------ *)

Lemma backstage_quiet ev : backstage ev → quiet ev.
Proof. by destruct ev. Qed.

Lemma quiet_hands_only new_filings ev : quiet ev → hands_only new_filings ev.
Proof. unfold quiet, hands_only. intros ->. set_solver. Qed.

Ltac solve_hands_only :=
  repeat step_emits;
  try (unfold hands_only; cbn [filings_of]; set_solver).

Lemma emits_save_to_csv e new_filings :
  emits (hands_only new_filings) (save_to_csv e new_filings).
Proof. unfold save_to_csv. solve_hands_only. Qed.

Lemma emits_send_email e new_filings :
  emits (hands_only new_filings) (send_email e new_filings).
Proof. unfold send_email, email_row. solve_hands_only. Qed.

Lemma emits_send_slack e new_filings :
  emits (hands_only new_filings) (send_slack e new_filings).
Proof. unfold send_slack, slack_block. solve_hands_only. Qed.

Lemma emits_dispatch e new_filings :
  emits (hands_only new_filings) (dispatch e new_filings).
Proof.
  unfold dispatch. destruct new_filings as [|f fs].
  - solve_hands_only.
  - apply emits_bind; [solve_hands_only|]. intros _.
    apply emits_bind; [apply emits_save_to_csv|]. intros _.
    apply emits_bind; [apply emits_send_email|]. intros _.
    apply emits_send_slack.
Qed.

Lemma keeps_save_to_csv e new_filings : keeps same_seen (save_to_csv e new_filings).
Proof. unfold save_to_csv. repeat step_keeps. by apply keeps_write_disk. Qed.

Lemma stateless_subscript key field : stateless (subscript key field).
Proof. by destruct field. Qed.

Lemma stateless_try {A : Type} (m : M A) (h : exn → M A) :
  stateless m → (∀ ex, stateless (h ex)) → stateless (try_except m h).
Proof.
  intros Hm Hh s. unfold try_except. destruct (res (m s)) eqn:E; cbn.
  - apply Hm.
  - by rewrite Hh, Hm.
Qed.

Lemma stateless_raise {A : Type} ex : stateless (raise ex : M A).
Proof. by intros s. Qed.

Ltac step_stateless :=
  first
    [ apply stateless_ret | apply stateless_raise | apply stateless_read_disk
    | apply stateless_subscript | apply stateless_tell | apply stateless_log
    | apply stateless_bind; [|intros ?]
    | apply stateless_try; [|intros ?]
    | apply stateless_foldM; intros ? ?
    | match goal with
      | |- stateless (match ?x with _ => _ end) => destruct x
      end ].

(** The e-mail and the Slack sink write no file. *)
Lemma stateless_send_email e new_filings : stateless (send_email e new_filings).
Proof. unfold send_email, email_row. repeat step_stateless. Qed.

Lemma stateless_send_slack e new_filings : stateless (send_slack e new_filings).
Proof. unfold send_slack, slack_block. repeat step_stateless. Qed.

Lemma keeps_dispatch e new_filings : keeps same_seen (dispatch e new_filings).
Proof.
  unfold dispatch. destruct new_filings as [|f fs]; [repeat step_keeps|].
  apply keeps_bind; [apply _|apply keeps_log; apply _|]. intros _.
  apply keeps_bind; [apply _|apply keeps_save_to_csv|]. intros _.
  apply keeps_bind; [apply _|apply stateless_keeps, stateless_send_email; apply _|].
  intros _. apply stateless_keeps, stateless_send_slack; apply _.
Qed.

Lemma dispatch_nothing e s :
  dispatch e [] s = Outcome (Ok ()) s [Log INFO MsgNoneFound].
Proof. reflexivity. Qed.

(** A run with the API key set, by its two parts. *)
Lemma run_unfold e s :
  DART_API_KEY e ≠ API_KEY_PLACEHOLDER →
  let o1 := find_new_filings e s in
  run e s =
  match res o1 with
  | Raise ex => Outcome (Raise ex) (post o1) (banner ++ out o1)
  | Ok new_filings =>
      let o2 := dispatch e new_filings (post o1) in
      match res o2 with
      | Ok _ => Outcome (Ok ()) (post o2) (banner ++ out o1 ++ out o2 ++ [Log INFO MsgDone])
      | Raise ex => Outcome (Raise ex) (post o2) (banner ++ out o1 ++ out o2)
      end
  end.
Proof.
  intros Hkey o1. unfold run.
  rewrite !bind_unfold. cbn [log tell res post out].
  rewrite decide_False by done.
  rewrite !bind_unfold. fold o1.
  destruct (res o1) as [new_filings|ex]; [|done].
  cbn zeta. rewrite bind_unfold.
  by destruct (res (dispatch e new_filings (post o1))) as [[]|ex].
Qed.

Lemma run_no_api_key e s :
  DART_API_KEY e = API_KEY_PLACEHOLDER →
  run e s = Outcome (Ok ()) s (banner ++ [Log ERROR MsgNoApiKey]).
Proof.
  intros Hkey. unfold run. rewrite !bind_unfold. cbn [log tell res post out].
  by rewrite decide_True.
Qed.

Lemma run_seen_file e s :
  DART_API_KEY e ≠ API_KEY_PLACEHOLDER →
  seen_filings_json (disk (post (run e s)))
  = seen_filings_json (disk (post (find_new_filings e s))).
Proof.
  intros Hkey. rewrite (run_unfold e s Hkey). cbn zeta.
  destruct (res (find_new_filings e s)) as [new_filings|ex]; [|done].
  pose proof (keeps_dispatch e new_filings (post (find_new_filings e s))) as H.
  unfold same_seen in H.
  by destruct (res (dispatch e new_filings _)).
Qed.

(** C1 (as amended): a run saves the seen set it loaded together with the
    key (the receipt number, or the empty string) of every filing the
    fetcher returned, matching or not, and so leaves it at the end of the
    run.  The new matches are, in the order fetched, the filings whose
    title matches and whose key is neither in the loaded set nor the key of
    a filing met earlier in the same run; when no two fetched filings share
    a key these are the filings whose key is not in the loaded set and
    whose title matches.  An exception of the resolver ends the run with
    the seen file untouched.  With "A1" seen and A1, A2, A3 fetched, of
    which only A3 matches, the new matches are A3 alone and the set saved
    holds A1, A2 and A3. *)
Theorem run_seen_set_and_new_matches (e : env) (s : state) :
  let S := persisted_seen (disk s) in
  let o := find_new_filings e s in
  match fetched e (companies_of (disk s)) s with
  | Ok filings =>
      res o = Ok (new_matches S filings) ∧
      persisted_seen (disk (post o)) = S ∪ list_to_set (seen_key <$> filings) ∧
      (DART_API_KEY e ≠ API_KEY_PLACEHOLDER →
       persisted_seen (disk (post (run e s)))
       = S ∪ list_to_set (seen_key <$> filings)) ∧
      (NoDup (seen_key <$> filings) →
       new_matches S filings = new_matches_as_specified S filings)
  | Raise ex =>
      res o = Raise ex ∧ persisted_seen (disk (post o)) = S
  end ∧
  persisted_seen example_files = {[ "A1" ]} ∧
  fetched example_env (companies_of example_files) (State example_files 0)
  = Ok [filing_A1; filing_A2; filing_A3] ∧
  is_value_up_filing <$> [filing_A1; filing_A2; filing_A3] = [false; false; true] ∧
  res (find_new_filings example_env (State example_files 0)) = Ok [filing_A3] ∧
  persisted_seen (disk (post (run_on example_env example_files)))
  = {[ "A1"; "A2"; "A3" ]}.
Proof.
  intros S o. split.
  - pose proof (find_new_filings_unfold e s) as H. cbn zeta in H. fold S o in H.
    destruct (fetched e (companies_of (disk s)) s) as [filings|ex].
    + destruct H as [Hres Hseen]. split_and!; [done..| |].
      * intros Hkey. unfold persisted_seen in *.
        by rewrite (run_seen_file e s Hkey).
      * intros Hnd. apply select_distinct_keys; [done|].
        intros f _ Hin. by apply elem_of_nil in Hin.
    + destruct H as [Hres Hseen]. split; [done|].
      unfold persisted_seen. by rewrite Hseen.
  - split_and!; by vm_compute.
Qed.

(** C1 as worded fails when two fetched filings share a key: of two
    filings without a receipt number, a report and then a value-up plan,
    the plan matches and its key is not in the loaded set, yet it is not
    among the new matches. *)
Lemma run_skips_second_unnumbered_match :
  let s := State unnumbered_files 0 in
  let S := persisted_seen unnumbered_files in
  fetched unnumbered_env (companies_of unnumbered_files) s
  = Ok [filing_unnumbered_report; filing_unnumbered_plan] ∧
  res (find_new_filings unnumbered_env s) = Ok [] ∧
  new_matches_as_specified S [filing_unnumbered_report; filing_unnumbered_plan]
  = [filing_unnumbered_plan] ∧
  (seen_key filing_unnumbered_plan ∉ S) ∧
  is_value_up_filing filing_unnumbered_plan = true ∧
  res (find_new_filings unnumbered_env s)
  ≠ Ok (new_matches_as_specified S [filing_unnumbered_report; filing_unnumbered_plan]).
Proof. cbn zeta. split_and!; by vm_compute. Qed.

(* ------------------------------------------------------------------ *)
(** ** The CSV ledger *)
(* ------------------------------------------------------------------ *)

Lemma select_elem_of S before filings f :
  f ∈ select S before filings →
  f ∈ filings ∧ (seen_key f ∉ S) ∧ is_value_up_filing f = true.
Proof.
  revert before. induction filings as [|g rest IH]; intros before; cbn [select].
  - by intros ?%elem_of_nil.
  - rewrite elem_of_app. intros [Hin|Hin].
    + case_decide as Hg; [|by apply elem_of_nil in Hin].
      destruct (is_value_up_filing g) eqn:Hv; [|by apply elem_of_nil in Hin].
      apply list_elem_of_singleton in Hin as ->. split_and!; [by left|tauto|done].
    + destruct (IH _ Hin) as (? & ? & ?). split_and!; [by right|done..].
Qed.

(** No two of the new matches of a run share a key. *)
Lemma select_NoDup S before filings :
  NoDup (seen_key <$> select S before filings) ∧
  ∀ f, f ∈ select S before filings → seen_key f ∉ seen_key <$> before.
Proof.
  revert before. induction filings as [|g rest IH]; intros before; cbn [select].
  - split; [constructor|]. by intros f ?%elem_of_nil.
  - destruct (IH (before ++ [g])) as [Hnd Hbefore].
    assert (∀ f, f ∈ select S (before ++ [g]) rest →
                 (seen_key f ∉ seen_key <$> before) ∧ seen_key f ≠ seen_key g) as Hrest.
    { intros f Hf. specialize (Hbefore f Hf).
      rewrite fmap_app, elem_of_app in Hbefore. cbn in Hbefore.
      rewrite list_elem_of_singleton in Hbefore. tauto. }
    case_decide as Hg; [destruct (is_value_up_filing g)|]; cbn [app].
    + split.
      * rewrite fmap_cons. apply NoDup_cons. split; [|done].
        intros (f & Hk & Hf)%list_elem_of_fmap. by apply (Hrest f Hf).
      * intros f [->|Hf]%elem_of_cons; [tauto|]. by apply Hrest.
    + split; [done|]. intros f Hf. by apply Hrest.
    + split; [done|]. intros f Hf. by apply Hrest.
Qed.

Lemma csv_row_receipts e filings :
  receipts (csv_row e <$> filings) = Csv.CStr <$> (seen_key <$> filings).
Proof. unfold receipts. rewrite <- !list_fmap_compose. done. Qed.

Lemma save_to_csv_written e new_filings s :
  let o := save_to_csv e new_filings s in
  match res o with
  | Ok _ =>
      value_up_filings_csv (disk (post o))
      = Some (csv_table (value_up_filings_csv (disk s) ≫= pd_read_csv e)
                        (csv_row e <$> new_filings))
  | Raise ex =>
      disk (post o) = disk s ∧ calls (out o) = [(CSV, new_filings)] ∧
      (ex = OSError ∨ ex = ParserError)
  end.
Proof.
  intros o. subst o. unfold save_to_csv.
  rewrite !bind_unfold. cbn [tell read_disk res post out].
  destruct (value_up_filings_csv (disk s)) as [stored|] eqn:Hcsv.
  - rewrite !bind_unfold. cbn [tell res post out].
    destruct (pd_read_csv e stored) as [df|] eqn:Hread; cbn [mret M_ret raise res post out].
    + destruct (to_csv_ok e); cbn.
      * by rewrite Hread.
      * split_and!; [done..|by left].
    + split_and!; [done..|by right].
  - cbn [mret M_ret res post out].
    destruct (to_csv_ok e); cbn.
    + done.
    + split_and!; [done..|by left].
Qed.

Lemma drop_duplicates_from_ext kept1 kept2 df :
  (∀ c, c ∈ kept1 ↔ c ∈ kept2) →
  Csv.drop_duplicates_from kept1 df = Csv.drop_duplicates_from kept2 df.
Proof.
  revert kept1 kept2. induction df as [|r df IH]; intros kept1 kept2 Hext; [done|].
  cbn. destruct (decide (Csv.receipt_no r ∈ kept1)) as [H1|H1].
  - rewrite decide_True by (by apply Hext). by apply IH.
  - rewrite decide_False by (by rewrite <- Hext). f_equal. apply IH.
    intros c. rewrite !elem_of_cons, Hext. done.
Qed.

Lemma drop_duplicates_from_app kept df1 df2 :
  Csv.drop_duplicates_from kept (df1 ++ df2)
  = Csv.drop_duplicates_from kept df1
    ++ Csv.drop_duplicates_from (receipts df1 ++ kept) df2.
Proof.
  revert kept. induction df1 as [|r df1 IH]; intros kept; [done|].
  cbn [app Csv.drop_duplicates_from]. case_decide as Hr.
  - rewrite IH. f_equal. apply drop_duplicates_from_ext.
    intros c. unfold receipts. rewrite fmap_cons. set_solver.
  - rewrite IH. cbn [app]. f_equal. f_equal. apply drop_duplicates_from_ext.
    intros c. unfold receipts. rewrite fmap_cons. set_solver.
Qed.

Lemma drop_duplicates_from_id kept df :
  NoDup (receipts df) → (∀ c, c ∈ receipts df → c ∉ kept) →
  Csv.drop_duplicates_from kept df = df.
Proof.
  unfold receipts. revert kept. induction df as [|r df IH]; intros kept Hnd Hkept; [done|].
  rewrite fmap_cons in Hnd, Hkept. apply NoDup_cons in Hnd as [Hr Hnd].
  cbn. rewrite decide_False by (apply Hkept; by left). f_equal. apply IH; [done|].
  intros c Hc. rewrite not_elem_of_cons. split.
  - intros ->. done.
  - apply Hkept. by right.
Qed.

(** Against a ledger whose [receipt_no] column was read as numbers, no
    new row is a duplicate. *)
Lemma csv_table_typed_ledger existing df_new :
  Forall (λ r, ∃ z, Csv.receipt_no r = Csv.CNum z) existing →
  Forall (λ r, ∃ s, Csv.receipt_no r = Csv.CStr s) df_new →
  NoDup (receipts df_new) →
  csv_table (Some existing) df_new = Csv.drop_duplicates existing ++ df_new.
Proof.
  intros Hnum Hstr Hnd. cbn [csv_table]. unfold Csv.drop_duplicates.
  rewrite drop_duplicates_from_app, app_nil_r. f_equal.
  apply drop_duplicates_from_id; [done|].
  intros c (r & -> & Hr)%list_elem_of_fmap (r' & Heq & Hr')%list_elem_of_fmap.
  rewrite Forall_forall in Hnum, Hstr.
  destruct (Hnum r' Hr') as [z Hz]. destruct (Hstr r Hr) as [t Ht]. congruence.
Qed.

(** C3 fails in the code: the receipt numbers of a ledger read back from
    its file are integers, those of the new rows strings, and
    [drop_duplicates] takes the two for different values.  A first run
    writes the ledger of one filing; with that ledger on disk and the
    filing new to the run (no seen file), [run] ends normally and leaves a
    ledger of two rows whose [receipt_no] fields are both written
    20240520000123; had the cells come back as the strings written, the
    new row would have been dropped.  In general no new row is dropped
    from a ledger whose [receipt_no] column was read as integers. *)
Theorem reread_ledger_keeps_a_receipt_twice :
  (let o := run_on retyping_env carried_over_files in
   let row_new := csv_row retyping_env filing_numbered_plan in
   value_up_filings_csv
     (disk (post (run_on retyping_env (Files (Some ["Acme Corp"]) None None None))))
   = Some ledger_as_written ∧
   res o = Ok () ∧
   res (find_new_filings retyping_env (State carried_over_files 0))
   = Ok [filing_numbered_plan] ∧
   [row_new] = ledger_as_written ∧
   value_up_filings_csv (disk (post o)) = Some (ledger_as_read ++ [row_new]) ∧
   receipts (ledger_as_read ++ [row_new])
   = [Csv.CNum 20240520000123; Csv.CStr "20240520000123"] ∧
   Csv.text <$> receipts (ledger_as_read ++ [row_new])
   = ["20240520000123"; "20240520000123"] ∧
   value_up_filings_csv (disk (post (run_on untyped_env carried_over_files)))
   = Some ledger_as_written) ∧
  (∀ e new_filings s stored existing,
     value_up_filings_csv (disk s) = Some stored →
     pd_read_csv e stored = Some existing →
     Forall (λ r, ∃ z, Csv.receipt_no r = Csv.CNum z) existing →
     NoDup (seen_key <$> new_filings) →
     res (save_to_csv e new_filings s) = Ok () →
     value_up_filings_csv (disk (post (save_to_csv e new_filings s)))
     = Some (Csv.drop_duplicates existing ++ (csv_row e <$> new_filings))).
Proof.
  split.
  - cbn zeta. split_and!; by vm_compute.
  - intros e new_filings s stored existing Hstored Hread Hnum Hnd Hok.
    pose proof (save_to_csv_written e new_filings s) as H. cbn zeta in H.
    rewrite Hok, Hstored in H. cbn [mbind option_bind] in H. rewrite Hread in H.
    rewrite H. f_equal. apply csv_table_typed_ledger; [done| |].
    + apply Forall_fmap, Forall_forall. intros f _. by eexists.
    + rewrite csv_row_receipts. apply NoDup_fmap_2; [|done]. by intros x y [=].
Qed.

(** C8: with the API key at its placeholder, [run] logs the error after
    the banner and returns: it produces nothing but those log lines (no
    file is read or written, no request made, no sink called) and leaves
    the state as it found it. *)
Theorem run_aborts_without_api_key (e : env) (s : state)
    (Hkey : DART_API_KEY e = API_KEY_PLACEHOLDER) :
  run e s = Outcome (Ok ()) s (banner ++ [Log ERROR MsgNoApiKey]) ∧
  post (run e s) = s ∧
  last (out (run e s)) = Some (Log ERROR MsgNoApiKey) ∧
  Forall (λ ev, ∃ lv msg, ev = Log lv msg) (out (run e s)) ∧
  calls (out (run e s)) = [].
Proof.
  unfold run. rewrite !bind_unfold. cbn [log tell res post out].
  rewrite decide_True by done. cbn.
  split_and!; [done..| |done].
  repeat constructor; by eexists _, _.
Qed.

Lemma run_aborts_without_api_key_witness :
  DART_API_KEY placeholder_env = API_KEY_PLACEHOLDER ∧
  run placeholder_env (State example_files 0)
  = Outcome (Ok ()) (State example_files 0) (banner ++ [Log ERROR MsgNoApiKey]).
Proof.
  split; [reflexivity|].
  apply (run_aborts_without_api_key placeholder_env (State example_files 0)).
  reflexivity.
Defined.

(* ------------------------------------------------------------------ *)
(** ** The e-mail and the Slack sink *)
(* ------------------------------------------------------------------ *)


Lemma slack_block_ok f s :
  has_display_fields f → ∃ b, slack_block f s = Outcome (Ok b) s [].
Proof.
  intros ([name Hn] & [title Ht] & [date Hd]).
  unfold slack_block. rewrite Hn, Ht, Hd. by eexists.
Qed.

Lemma slack_blocks_ok new_filings blocks s :
  Forall has_display_fields new_filings →
  ∃ bs, foldM (λ blocks f, b ← slack_block f; mret (blocks ++ [b])) new_filings blocks s
        = Outcome (Ok bs) s [].
Proof.
  intros Hall. revert blocks.
  induction Hall as [|f fs Hf Hfs IH]; intros blocks; [by eexists|].
  cbn [foldM]. destruct (slack_block_ok f s Hf) as [b Hb].
  rewrite bind_unfold, bind_unfold, Hb. cbn [mret M_ret res post out].
  destruct (IH (blocks ++ [b])) as [bs Hbs]. rewrite Hbs. by eexists.
Qed.

(** The Slack sink returns normally whatever the webhook answers, unless
    a filing lacks a field it reads. *)
Lemma send_slack_ok e new_filings s :
  SLACK_WEBHOOK e = "" ∨ Forall has_display_fields new_filings →
  res (send_slack e new_filings s) = Ok ().
Proof.
  intros H. unfold send_slack. rewrite bind_unfold. cbn [tell res post out].
  case_decide as Hhook; [done|]. destruct H as [?|Hall]; [done|].
  destruct (slack_blocks_ok new_filings [] s Hall) as [bs Hbs].
  rewrite bind_unfold, Hbs. cbn [res post out].
  unfold try_except. rewrite bind_unfold. cbn [tell res post out].
  by destruct (slack e).
Qed.




(* ------------------------------------------------------------------ *)
(** ** Sequences of runs *)
(* ------------------------------------------------------------------ *)

(** An event of a run hands over filings only if the run found new
    filings, and then only those. *)
Lemma run_event_cases e s ev :
  ev ∈ out (run e s) →
  quiet ev ∨
  ∃ new_filings, DART_API_KEY e ≠ API_KEY_PLACEHOLDER ∧
                 res (find_new_filings e s) = Ok new_filings ∧
                 hands_only new_filings ev.
Proof.
  intros Hev.
  assert (∀ ev', ev' ∈ banner → quiet ev') as Hbanner.
  { intros ev' Hin. unfold banner in Hin.
    rewrite !elem_of_cons, elem_of_nil in Hin. by destruct Hin as [->|[->|[->|[]]]]. }
  destruct (decide (DART_API_KEY e = API_KEY_PLACEHOLDER)) as [Hkey|Hkey].
  - rewrite (run_no_api_key e s Hkey) in Hev. cbn [out] in Hev.
    apply elem_of_app in Hev as [Hev|Hev]; [left; by apply Hbanner|].
    apply list_elem_of_singleton in Hev as ->. by left.
  - rewrite (run_unfold e s Hkey) in Hev. cbn zeta in Hev.
    pose proof (emits_find_new_filings e s) as Hfind.
    rewrite Forall_forall in Hfind.
    destruct (res (find_new_filings e s)) as [new_filings|ex] eqn:Hres.
    + pose proof (emits_dispatch e new_filings (post (find_new_filings e s))) as Hd.
      rewrite Forall_forall in Hd.
      assert (ev ∈ banner ++ out (find_new_filings e s)
                   ++ out (dispatch e new_filings (post (find_new_filings e s)))
                   ++ [Log INFO MsgDone]) as Hin.
      { destruct (res (dispatch e new_filings _)); cbn [out] in Hev; [done|].
        rewrite !elem_of_app in *. tauto. }
      rewrite !elem_of_app in Hin.
      destruct Hin as [Hin|[Hin|[Hin|Hin]]].
      * left. by apply Hbanner.
      * left. by apply backstage_quiet, Hfind.
      * right. exists new_filings. split_and!; [done..|]. by apply Hd.
      * apply list_elem_of_singleton in Hin as ->. by left.
    + cbn [out] in Hev. apply elem_of_app in Hev as [Hev|Hev].
      * left. by apply Hbanner.
      * left. by apply backstage_quiet, Hfind.
Qed.

(** A filing handed to a sink had a key that was not in the seen set the
    run started from, and is in the seen set the run leaves. *)
Lemma run_hands_unseen e s ev f :
  ev ∈ out (run e s) → f ∈ filings_of ev →
  (seen_key f ∉ persisted_seen (disk s)) ∧
  seen_key f ∈ persisted_seen (disk (post (run e s))).
Proof.
  intros Hev Hf.
  destruct (run_event_cases e s ev Hev) as [Hq|(new_filings & Hkey & Hres & Hnew)].
  { unfold quiet in Hq. rewrite Hq in Hf. by apply elem_of_nil in Hf. }
  apply Hnew in Hf.
  pose proof (find_new_filings_unfold e s) as H. cbn zeta in H.
  destruct (fetched e (companies_of (disk s)) s) as [filings|ex].
  - destruct H as [Hres' Hseen]. rewrite Hres in Hres'. injection Hres' as ->.
    apply select_elem_of in Hf as (Hin & HS & _). split; [done|].
    unfold persisted_seen in *. rewrite (run_seen_file e s Hkey), Hseen.
    apply elem_of_union_r, elem_of_list_to_set. by apply list_elem_of_fmap_2.
  - destruct H as [Hres' _]. congruence.
Qed.

Lemma keeps_run_seen e : keeps seen_grows (run e).
Proof.
  intros s. unfold seen_grows.
  destruct (decide (DART_API_KEY e = API_KEY_PLACEHOLDER)) as [Hkey|Hkey].
  - by rewrite (run_no_api_key e s Hkey).
  - pose proof (find_new_filings_unfold e s) as H. cbn zeta in H.
    unfold persisted_seen in *. rewrite (run_seen_file e s Hkey).
    destruct (fetched e (companies_of (disk s)) s) as [filings|ex].
    + destruct H as [_ ->]. set_solver.
    + destruct H as [_ ->]. done.
Qed.

(** Once a key is in the persisted seen set, no run of any sequence that
    follows hands a filing with that key to a sink. *)
Lemma runs_never_hand_seen es d r :
  r ∈ persisted_seen d →
  ∀ o ev f, o ∈ runs es d → ev ∈ out o → f ∈ filings_of ev → seen_key f ≠ r.
Proof.
  revert d. induction es as [|e es IH]; intros d Hr o ev f Ho Hev Hf; cbn in Ho.
  - by apply elem_of_nil in Ho.
  - apply elem_of_cons in Ho as [->|Ho].
    + destruct (run_hands_unseen e (State d 0) ev f Hev Hf) as [Hnot _].
      intros Heq. apply Hnot. by rewrite Heq.
    + eapply IH; [|done..].
      by apply (keeps_run_seen e (State d 0)).
Qed.

(** C5 as worded fails when a sink does not take the message: the mail
    server refuses the digest of the run that finds A3; the sink logs the
    failure, the key "A3" is already saved, and no run of any sequence
    that follows hands a filing with that key to any sink again. *)
Lemma refused_email_is_never_resent :
  let o1 := run_on smtp_refused_env example_files in
  (EMAIL_SENDER smtp_refused_env ≠ "" ∧ EMAIL_PASSWORD smtp_refused_env ≠ ""
   ∧ EMAIL_TO smtp_refused_env ≠ "") ∧
  ("A3" ∉ persisted_seen example_files) ∧
  "A3" ∈ persisted_seen (disk (post o1)) ∧
  calls (out o1) = [(CSV, [filing_A3]); (EMAIL, [filing_A3]); (SLACK, [filing_A3])] ∧
  smtp smtp_refused_env = SmtpSendRefused ∧
  Log ERROR (MsgEmailFailed SMTPException) ∈ out o1 ∧
  (∀ lv recipients, Log lv (MsgEmailSent recipients) ∉ out o1) ∧
  ∀ es o ev f,
    o ∈ runs es (disk (post o1)) → ev ∈ out o → f ∈ filings_of ev →
    seen_key f ≠ "A3".
Proof.
  cbn zeta.
  assert ("A3" ∈ persisted_seen (disk (post (run_on smtp_refused_env example_files))))
    as Hseen by (by vm_compute).
  split_and!; [by vm_compute..|exact Hseen|by vm_compute|by vm_compute| | |].
  - vm_compute. repeat constructor.
  - intros lv recipients Hin. vm_compute in Hin.
    repeat (apply elem_of_cons in Hin as [Hin|Hin]; [discriminate Hin|]).
    by apply elem_of_nil in Hin.
  - intros es o ev f. by apply runs_never_hand_seen.
Qed.

(* ------------------------------------------------------------------ *)
(** ** Where a run can fail before it saves the seen set *)
(* ------------------------------------------------------------------ *)






(* ------------------------------------------------------------------ *)
(** ** Filings without a receipt number *)
(* ------------------------------------------------------------------ *)







(* ------------------------------------------------------------------ *)
(** ** Failures inside the sinks *)
(* ------------------------------------------------------------------ *)

Lemma email_row_ok f s :
  has_display_fields f → ∃ r, email_row f s = Outcome (Ok r) s [].
Proof.
  intros ([name Hn] & [title Ht] & [date Hd]).
  unfold email_row. rewrite Hn, Ht, Hd. by eexists.
Qed.

Lemma email_rows_ok new_filings rows s :
  Forall has_display_fields new_filings →
  ∃ rs, foldM (λ rows f, r ← email_row f; mret (rows +:+ r)) new_filings rows s
        = Outcome (Ok rs) s [].
Proof.
  intros Hall. revert rows.
  induction Hall as [|f fs Hf Hfs IH]; intros rows; [by eexists|].
  cbn [foldM]. destruct (email_row_ok f s Hf) as [r Hr].
  rewrite bind_unfold, bind_unfold, Hr. cbn [mret M_ret res post out].
  destruct (IH (rows +:+ r)) as [rs Hrs]. rewrite Hrs. by eexists.
Qed.

(** The e-mail sink returns normally whatever the mail server does,
    unless a filing lacks a field it reads. *)
Lemma send_email_ok e new_filings s :
  Forall has_display_fields new_filings →
  res (send_email e new_filings s) = Ok ().
Proof.
  intros Hall. unfold send_email. rewrite bind_unfold. cbn [tell res post out].
  case_decide as Hmail; [done|].
  destruct (email_rows_ok new_filings "" s Hall) as [rs Hrs].
  rewrite bind_unfold, Hrs. cbn [res post out].
  unfold try_except. rewrite bind_unfold. cbn [tell res post out].
  by destruct (smtp e).
Qed.

(** C2, on the code: the e-mail and the Slack sink catch what their
    network calls raise and return normally, but nothing in [save_to_csv]
    or around its call catches a failure of the ledger.  Whenever
    [save_to_csv] raises, the sinks' part of the run ends with that
    exception and with [save_to_csv] as the only sink called; in the
    example run with the ledger not writable, [run] ends with [OSError],
    neither [send_email] nor [send_slack] is called, and "A3" is already
    in the seen set saved. *)
Theorem csv_failure_aborts_the_run :
  (∀ e new_filings s,
     Forall has_display_fields new_filings →
     res (send_email e new_filings s) = Ok () ∧
     res (send_slack e new_filings s) = Ok ()) ∧
  (∀ e f fs s ex,
     res (save_to_csv e (f :: fs) s) = Raise ex →
     res (dispatch e (f :: fs) s) = Raise ex ∧
     calls (out (dispatch e (f :: fs) s)) = [(CSV, f :: fs)]) ∧
  (let o := run_on csv_locked_env example_files in
   res o = Raise OSError ∧
   calls (out o) = [(CSV, [filing_A3])] ∧
   value_up_filings_csv (disk (post o)) = None ∧
   persisted_seen (disk (post o)) = {[ "A1"; "A2"; "A3" ]}).
Proof.
  split_and!.
  - intros e new_filings s Hall. split.
    + by apply send_email_ok.
    + apply send_slack_ok. by right.
  - intros e f fs s ex Hraise.
    pose proof (save_to_csv_written e (f :: fs) s) as H. cbn zeta in H.
    rewrite Hraise in H. destruct H as (_ & Hcalls & _).
    unfold dispatch. rewrite bind_unfold. cbn [log tell res post out].
    rewrite bind_unfold, Hraise. cbn [res post out].
    split; [done|]. by rewrite <- Hcalls.
  - cbn zeta. split_and!; by vm_compute.
Qed.

(* ================================================================== *)
(** * Further properties of the script *)
(* ================================================================== *)

(* ------------------------------------------------------------------ *)
(** ** The seen file *)
(* ------------------------------------------------------------------ *)

(** X1: what [save_seen] writes, [load_seen] reads back as the same set,
    touching no other file; a seen file that does not exist reads as the
    empty set without any file access, and a JSON array with repeated
    identifiers reads as the set of its elements. *)
Theorem seen_file_round_trip (seen : gset string) (s : state) :
  let s' := post (save_seen seen s) in
  res (save_seen seen s) = Ok () ∧
  load_seen s' = Outcome (Ok seen) s' [FsRead SEEN_FILE] ∧
  companies_txt (disk s') = companies_txt (disk s) ∧
  value_up_filings_csv (disk s') = value_up_filings_csv (disk s) ∧
  corp_codes_json (disk s') = corp_codes_json (disk s) ∧
  (∀ s0, seen_filings_json (disk s0) = None →
         load_seen s0 = Outcome (Ok ∅) s0 []) ∧
  (∀ s0 ids, seen_filings_json (disk s0) = Some ids →
             load_seen s0 = Outcome (Ok (list_to_set ids)) s0 [FsRead SEEN_FILE]).
Proof.
  cbn zeta. rewrite save_seen_unfold. cbn [res post disk].
  split_and!; try done.
  - unfold load_seen. rewrite bind_unfold. cbn.
    by rewrite list_to_set_elements_L.
  - intros s0 H0. unfold load_seen. rewrite bind_unfold. cbn. by rewrite H0.
  - intros s0 ids H0. unfold load_seen. rewrite bind_unfold. cbn. by rewrite H0.
Qed.

(** X2: over any sequence of runs, whatever their settings and however
    they end, the persisted seen set never loses an identifier. *)
Theorem seen_set_never_shrinks (es : list env) (d : files) (o : outcome unit)
    (Ho : o ∈ runs es d) :
  persisted_seen d ⊆ persisted_seen (disk (post o)).
Proof.
  revert d Ho. induction es as [|e es IH]; intros d Ho; cbn in Ho.
  - by apply elem_of_nil in Ho.
  - pose proof (keeps_run_seen e (State d 0)) as Hrun. unfold seen_grows in Hrun.
    cbn [disk] in Hrun.
    apply elem_of_cons in Ho as [->|Ho]; [done|].
    etrans; [exact Hrun|]. by apply IH.
Qed.

Lemma seen_set_never_shrinks_witness :
  run_on smtp_refused_env example_files ∈ runs [smtp_refused_env; later_env] example_files ∧
  persisted_seen example_files
  ⊆ persisted_seen (disk (post (run_on smtp_refused_env example_files))).
Proof.
  assert (run_on smtp_refused_env example_files
          ∈ runs [smtp_refused_env; later_env] example_files) as H by (cbn; by left).
  split; [exact H|].
  exact (seen_set_never_shrinks [smtp_refused_env; later_env] example_files _ H).
Defined.

Lemma calls_app evs1 evs2 : calls (evs1 ++ evs2) = calls evs1 ++ calls evs2.
Proof. apply omap_app. Qed.

Lemma calls_backstage evs : Forall backstage evs → calls evs = [].
Proof.
  induction 1 as [|ev evs Hev _ IH]; [done|].
  unfold calls in *. cbn. rewrite IH. by destruct ev.
Qed.

Lemma calls_find_new_filings e s : calls (out (find_new_filings e s)) = [].
Proof. apply calls_backstage, emits_find_new_filings. Qed.

Lemma select_all_seen S before filings :
  (∀ f, f ∈ filings → seen_key f ∈ S) → select S before filings = [].
Proof.
  revert before. induction filings as [|f rest IH]; intros before Hall; [done|].
  cbn [select]. rewrite IH by (intros g Hg; apply Hall; by right).
  rewrite decide_False; [done|]. intros [Hnot _]. apply Hnot, Hall. by left.
Qed.

(** What a run comes to when its loop ends without a new filing. *)
Lemma run_nothing_new e s :
  DART_API_KEY e ≠ API_KEY_PLACEHOLDER →
  res (find_new_filings e s) = Ok [] →
  res (run e s) = Ok () ∧
  post (run e s) = post (find_new_filings e s) ∧
  out (run e s) = banner ++ out (find_new_filings e s)
                  ++ [Log INFO MsgNoneFound; Log INFO MsgDone] ∧
  calls (out (run e s)) = [].
Proof.
  intros Hkey Hnone. rewrite (run_unfold e s Hkey). cbn zeta.
  rewrite Hnone, dispatch_nothing. cbn [res post out].
  split_and!; [done..|].
  rewrite !calls_app, calls_find_new_filings. done.
Qed.

(** X3: a run whose fetcher returns only filings already in the seen set
    (nothing new at DART since the last run) ends normally, finds nothing,
    calls no sink, leaves the ledger alone and saves the seen set it
    loaded. *)
Theorem run_without_news_is_idle (e : env) (s : state) (filings : list filing)
    (Hkey : DART_API_KEY e ≠ API_KEY_PLACEHOLDER)
    (Hfetched : fetched e (companies_of (disk s)) s = Ok filings)
    (Hseen : ∀ f, f ∈ filings → seen_key f ∈ persisted_seen (disk s)) :
  res (find_new_filings e s) = Ok [] ∧
  res (run e s) = Ok () ∧
  calls (out (run e s)) = [] ∧
  persisted_seen (disk (post (run e s))) = persisted_seen (disk s) ∧
  value_up_filings_csv (disk (post (run e s))) = value_up_filings_csv (disk s).
Proof.
  pose proof (find_new_filings_unfold e s) as H. cbn zeta in H.
  rewrite Hfetched in H. destruct H as [Hres Hsaved].
  unfold new_matches in Hres. rewrite select_all_seen in Hres by done.
  destruct (run_nothing_new e s Hkey Hres) as (Hok & Hpost & _ & Hcalls).
  split_and!; [done..| |].
  - rewrite Hpost, Hsaved.
    apply set_eq. intros r. rewrite elem_of_union, elem_of_list_to_set.
    split; [|tauto]. intros [?|(f & -> & Hf)%list_elem_of_fmap]; [done|by apply Hseen].
  - rewrite Hpost. apply (keeps_find_new_filings_csv e s).
Qed.

Lemma run_without_news_is_idle_witness :
  let s := State (disk (post (run_on example_env example_files))) 0 in
  fetched example_env (companies_of (disk s)) s = Ok [filing_A1; filing_A2; filing_A3] ∧
  res (run example_env s) = Ok () ∧
  calls (out (run example_env s)) = [].
Proof.
  cbn zeta.
  assert (fetched example_env
            (companies_of (disk (post (run_on example_env example_files))))
            (State (disk (post (run_on example_env example_files))) 0)
          = Ok [filing_A1; filing_A2; filing_A3]) as Hf by (by vm_compute).
  split; [exact Hf|].
  refine (let H := run_without_news_is_idle example_env
                     (State (disk (post (run_on example_env example_files))) 0)
                     _ _ Hf _ in
          conj (proj1 (proj2 H)) (proj1 (proj2 (proj2 H)))).
  - by vm_compute.
  - intros f Hin. rewrite !elem_of_cons, elem_of_nil in Hin.
    destruct Hin as [->|[->|[->|[]]]]; by vm_compute.
Defined.

(* ------------------------------------------------------------------ *)
(** ** The new filings of a run *)
(* ------------------------------------------------------------------ *)

Lemma select_sublist S before filings : select S before filings `sublist_of` filings.
Proof.
  revert before. induction filings as [|f rest IH]; intros before; [done|].
  cbn [select]. case_decide; [destruct (is_value_up_filing f)|]; cbn [app].
  - by apply sublist_skip.
  - by apply sublist_cons.
  - by apply sublist_cons.
Qed.

(** X4: the new filings a run hands to its sinks are filings the fetcher
    returned, in the order fetched; each has a matching title and a key
    that was not in the seen set loaded; no two of them share a key. *)
Theorem new_filings_are_distinct_matches (e : env) (s : state)
    (new_filings : list filing)
    (Hres : res (find_new_filings e s) = Ok new_filings) :
  (∃ filings, fetched e (companies_of (disk s)) s = Ok filings ∧
              new_filings `sublist_of` filings) ∧
  Forall (λ f, is_value_up_filing f = true ∧
               seen_key f ∉ persisted_seen (disk s)) new_filings ∧
  NoDup (seen_key <$> new_filings).
Proof.
  pose proof (find_new_filings_unfold e s) as H. cbn zeta in H.
  destruct (fetched e (companies_of (disk s)) s) as [filings|ex];
    [|destruct H; congruence].
  destruct H as [Hres' _]. rewrite Hres in Hres'. injection Hres' as ->.
  split_and!.
  - exists filings. split; [done|]. apply select_sublist.
  - apply Forall_forall. intros f Hf.
    apply select_elem_of in Hf as (_ & ? & ?). done.
  - apply (select_NoDup (persisted_seen (disk s)) [] filings).
Qed.

Lemma new_filings_are_distinct_matches_witness :
  res (find_new_filings later_env (State example_files 0))
  = Ok [filing_A4; filing_A3] ∧
  NoDup (seen_key <$> [filing_A4; filing_A3]).
Proof.
  assert (res (find_new_filings later_env (State example_files 0))
          = Ok [filing_A4; filing_A3]) as H by (by vm_compute).
  split; [exact H|].
  exact (proj2 (proj2 (new_filings_are_distinct_matches later_env _ _ H))).
Defined.

(* ------------------------------------------------------------------ *)
(** ** The identifier cache as built from the listing *)
(* ------------------------------------------------------------------ *)

Lemma dict_get_set_eq k v d : Dict.get k (Dict.set k v d) = Some v.
Proof.
  induction d as [|[k' v'] d IH]; cbn.
  - by rewrite decide_True.
  - case_decide as Hk; cbn.
    + by rewrite decide_True.
    + by rewrite decide_False.
Qed.

Lemma dict_get_set_ne k k' v d :
  k ≠ k' → Dict.get k (Dict.set k' v d) = Dict.get k d.
Proof.
  intros Hne. induction d as [|[k0 v0] d IH]; cbn.
  - by rewrite decide_False.
  - case_decide as Hk; cbn.
    + subst k0. by rewrite !decide_False.
    + case_decide; [done|apply IH].
Qed.

Lemma dict_set_elem_of k v d kv :
  kv ∈ Dict.set k v d → kv = (k, v) ∨ kv ∈ d.
Proof.
  induction d as [|[k0 v0] d IH]; cbn.
  - intros ->%list_elem_of_singleton. by left.
  - case_decide as Hk.
    + intros [->|Hin]%elem_of_cons; [by left|]. right. by right.
    + intros [->|Hin]%elem_of_cons; [right; by left|].
      destruct (IH Hin) as [->|?]; [by left|]. right. by right.
Qed.

Lemma dict_set_NoDup k v d : NoDup d.*1 → NoDup (Dict.set k v d).*1.
Proof.
  induction d as [|[k0 v0] d IH]; cbn.
  - intros _. apply NoDup_singleton.
  - intros [Hk0 Hd]%NoDup_cons. case_decide as Hk; cbn.
    + subst k0. by apply NoDup_cons.
    + apply NoDup_cons. split; [|by apply IH].
      intros ([k1 v1] & Heq & Hin)%list_elem_of_fmap. cbn in Heq. subst k1.
      apply dict_set_elem_of in Hin as [[= -> ->]|Hin]; [done|].
      apply Hk0. apply list_elem_of_fmap. by exists (k0, v1).
Qed.

Lemma dict_get_Some_elem_of k v d : Dict.get k d = Some v → (k, v) ∈ d.
Proof.
  induction d as [|[k0 v0] d IH]; cbn; [done|].
  case_decide as Hk.
  - intros [= ->]. subst k0. by left.
  - intros H. right. by apply IH.
Qed.

Lemma first_partial_Some_elem_of q d v :
  first_partial q d = Some v → ∃ k, (k, v) ∈ d ∧ PyStr.contains q k = true.
Proof.
  induction d as [|[k0 v0] d IH]; cbn; [done|].
  destruct (PyStr.contains q k0) eqn:Hc.
  - intros [= ->]. exists k0. split; [by left|done].
  - intros H. destruct (IH H) as (k & Hin & Hk). exists k. split; [by right|done].
Qed.

(** The dict after one more item of the listing. *)
Lemma build_corp_map_snoc lower items item :
  build_corp_map lower (items ++ [item]) =
  if decide (item_code item = "") then build_corp_map lower items
  else Dict.set (lower (PyStr.strip (default "" (item_stock_code item))))
                (item_code item)
                (Dict.set (lower (PyStr.strip (default "" (item_corp_name item))))
                          (item_code item) (build_corp_map lower items)).
Proof. unfold build_corp_map, item_code. by rewrite fold_left_app. Qed.

(** X5: the dict [get_corp_code] builds from a listing has no key twice
    and no empty code, whatever [str.lower] does to the names: every entry
    holds the code of an item of the listing under one of that item's two
    keys, so a query resolved on a rebuilt cache never yields the empty
    string, which [run] would take for "not found". *)
Theorem built_corp_map_is_dict (lower : string → string) (items : list corp_item) :
  NoDup (build_corp_map lower items).*1 ∧
  (∀ k v, (k, v) ∈ build_corp_map lower items →
          v ≠ "" ∧ ∃ item, item ∈ items ∧ v = item_code item
                           ∧ k ∈ item_keys lower item) ∧
  (∀ query code,
     _search_corp_map lower (build_corp_map lower items) query = Some code →
     code ≠ "" ∧ ∃ item, item ∈ items ∧ code = item_code item).
Proof.
  assert (NoDup (build_corp_map lower items).*1 ∧
          ∀ k v, (k, v) ∈ build_corp_map lower items →
                 v ≠ "" ∧ ∃ item, item ∈ items ∧ v = item_code item
                                  ∧ k ∈ item_keys lower item) as [Hnd Hentries].
  { induction items as [|item items [IHnd IH]] using rev_ind.
    - split; [constructor|]. by intros k v ?%elem_of_nil.
    - rewrite build_corp_map_snoc. case_decide as Hcode.
      + split; [done|]. intros k v Hin.
        destruct (IH k v Hin) as (Hv & it & Hit & ? & ?).
        split; [done|]. exists it. rewrite elem_of_app. tauto.
      + split; [by do 2 apply dict_set_NoDup|].
        intros k v Hin.
        assert (∀ k', k' ∈ item_keys lower item →
                      (k, v) = (k', item_code item) →
                      v ≠ "" ∧ ∃ it, it ∈ items ++ [item] ∧ v = item_code it
                                     ∧ k ∈ item_keys lower it) as Hnew.
        { intros k' Hk' [= -> ->]. split; [done|]. exists item.
          rewrite elem_of_app, list_elem_of_singleton. tauto. }
        apply dict_set_elem_of in Hin as [Heq|Hin].
        { eapply Hnew; [|exact Heq]. unfold item_keys. set_solver. }
        apply dict_set_elem_of in Hin as [Heq|Hin].
        { eapply Hnew; [|exact Heq]. unfold item_keys. set_solver. }
        destruct (IH k v Hin) as (Hv & it & Hit & ? & ?).
        split; [done|]. exists it. rewrite elem_of_app. tauto. }
  split_and!; [done..|].
  intros query code. unfold _search_corp_map.
  destruct (Dict.get _ _) as [c|] eqn:Hget.
  - intros [= ->]. apply dict_get_Some_elem_of in Hget.
    destruct (Hentries _ _ Hget) as (? & it & ? & ? & _). eauto.
  - intros (k & Hin & _)%first_partial_Some_elem_of.
    destruct (Hentries _ _ Hin) as (? & it & ? & ? & _). eauto.
Qed.

(** X6: an item of the listing with a code can be looked up under its
    lower-cased name and under its lower-cased stock code, and a query
    that strips and lower-cases to either resolves to its code, provided
    no later item with a code uses that key (a later one would take it
    over).  [lower] is [str.lower], whatever its case mapping. *)
Theorem listed_company_resolves (lower : string → string)
    (before after : list corp_item) (item : corp_item) (k : string)
    (Hcode : item_code item ≠ "")
    (Hk : k ∈ item_keys lower item)
    (Hlater : ∀ it, it ∈ after → item_code it ≠ "" → k ∉ item_keys lower it) :
  Dict.get k (build_corp_map lower (before ++ item :: after))
  = Some (item_code item) ∧
  ∀ query, lower (PyStr.strip query) = k →
           _search_corp_map lower (build_corp_map lower (before ++ item :: after)) query
           = Some (item_code item).
Proof.
  assert (Dict.get k (build_corp_map lower (before ++ item :: after))
          = Some (item_code item)) as Hget.
  { induction after as [|it after IH] using rev_ind.
    - rewrite build_corp_map_snoc, decide_False by done.
      unfold item_keys in Hk. rewrite !elem_of_cons, elem_of_nil in Hk.
      destruct (decide (k = lower (PyStr.strip (default "" (item_stock_code item)))))
        as [->|Hne].
      + apply dict_get_set_eq.
      + rewrite dict_get_set_ne by done.
        destruct Hk as [->|[?|[]]]; [|done]. apply dict_get_set_eq.
    - rewrite (assoc_L _ before (item :: after) [it]
               : before ++ item :: after ++ [it] = (before ++ item :: after) ++ [it]).
      rewrite build_corp_map_snoc.
      assert (∀ it', it' ∈ after → item_code it' ≠ "" → k ∉ item_keys lower it')
        as Hafter.
      { intros it' Hin. apply Hlater. rewrite elem_of_app. by left. }
      case_decide as Hit; [by apply IH|].
      assert (k ∉ item_keys lower it) as Hnot.
      { apply Hlater; [|done]. rewrite elem_of_app, list_elem_of_singleton. by right. }
      unfold item_keys in Hnot. rewrite !not_elem_of_cons in Hnot.
      destruct Hnot as (Hn1 & Hn2 & _).
      rewrite !dict_get_set_ne by done. by apply IH. }
  split; [done|]. intros query Hq. unfold _search_corp_map. by rewrite Hq, Hget.
Qed.

Lemma listed_company_resolves_witness :
  _search_corp_map PyStr.lower (build_corp_map PyStr.lower example_listing)
                   "  ACME Corp "
  = Some "00012345".
Proof.
  refine (proj2 (listed_company_resolves PyStr.lower []
                   [CorpItem (Some "Beta Inc") (Some "00098765") (Some "098765")]
                   (CorpItem (Some "Acme Corp") (Some "00012345") (Some "012345"))
                   "acme corp" _ _ _) "  ACME Corp " _).
  - by vm_compute.
  - vm_compute. by left.
  - intros it Hin _. apply list_elem_of_singleton in Hin as ->.
    unfold item_keys. rewrite !not_elem_of_cons.
    split_and!; [by vm_compute..|apply not_elem_of_nil].
  - by vm_compute.
Defined.

(** X7: a query that is empty once stripped is a substring of every key:
    on a cache that is not empty it resolves to the code stored under the
    empty key (the stock code of unlisted companies), or else to the code
    of the first entry, and never to "not found".  [lower] is [str.lower],
    of which only that it leaves the empty string empty is used. *)
Theorem blank_query_resolves (lower : string → string) (k v : string)
    (rest : list (string * string)) (query : string)
    (Hlower : lower "" = "") (Hblank : PyStr.strip query = "") :
  _search_corp_map lower ((k, v) :: rest) query
  = Some (default v (Dict.get "" ((k, v) :: rest))).
Proof.
  unfold _search_corp_map. rewrite Hblank, Hlower.
  destruct (Dict.get "" ((k, v) :: rest)) as [c|] eqn:Hget; [done|].
  cbn [first_partial default].
  assert (PyStr.contains "" k = true) as ->; [|done].
  apply contains_spec. by exists "", k.
Qed.

Lemma blank_query_resolves_witness :
  PyStr.strip "   " = "" ∧
  _search_corp_map PyStr.lower (build_corp_map PyStr.lower example_listing) "   "
  = Some "00012345".
Proof.
  assert (PyStr.strip "   " = "") as H by reflexivity.
  split; [exact H|].
  exact (blank_query_resolves PyStr.lower "acme corp" "00012345"
           [("012345", "00012345"); ("beta inc", "00098765"); ("098765", "00098765")]
           "   " eq_refl H).
Defined.

(* ------------------------------------------------------------------ *)
(** ** Downloads of the company listing *)
(* ------------------------------------------------------------------ *)

Lemma get_corp_code_cached e company s mtime corp_map :
  corp_codes_json (disk s) = Some (mtime, corp_map) →
  now e - mtime < SEVEN_DAYS →
  get_corp_code e company s
  = Outcome (Ok (_search_corp_map (str_lower e) corp_map company)) s
            [FsRead CACHE_FILE].
Proof.
  intros Hcache Hage. unfold get_corp_code.
  rewrite bind_unfold. cbn [read_disk res post out].
  rewrite Hcache, decide_True by done. rewrite bind_unfold. by destruct s.
Qed.

Lemma get_corp_code_stale e company s :
  ¬ fresh_cache e (disk s) →
  get_corp_code e company s = refresh_corp_codes e company s.
Proof.
  intros Hstale. unfold get_corp_code.
  rewrite bind_unfold. cbn [read_disk res post out].
  destruct (corp_codes_json (disk s)) as [[mtime corp_map]|] eqn:Hcache.
  - case_decide as Hage.
    + exfalso. apply Hstale. by exists mtime, corp_map.
    + by destruct (refresh_corp_codes e company s).
  - by destruct (refresh_corp_codes e company s).
Qed.

Lemma refresh_corp_codes_failed e company s :
  (∀ items, corp_code_xml e ≠ DlListing items) →
  ∃ ex, refresh_corp_codes e company s
        = Outcome (Raise ex) s [Log INFO MsgDownloading; GetCorpCodeXml] ∧
        (ex = ConnectionError ∨ ex = HTTPError ∨ ex = BadZipFile).
Proof.
  intros Hdl. unfold refresh_corp_codes.
  rewrite !bind_unfold. cbn [log tell res post out].
  destruct (corp_code_xml e) as [| | |items].
  - exists ConnectionError. split; [by destruct s|tauto].
  - exists HTTPError. split; [by destruct s|tauto].
  - exists BadZipFile. split; [by destruct s|tauto].
  - by destruct (Hdl items).
Qed.

Lemma check_company_raise e acc company s ex s' evs :
  get_corp_code e company s = Outcome (Raise ex) s' evs →
  check_company e acc company s = Outcome (Raise ex) s' evs.
Proof. intros H. unfold check_company. by rewrite bind_unfold, H. Qed.

(** X8: when the identifier cache is missing or stale and the listing
    cannot be downloaded, the run ends with the exception of the download
    at the first company: nothing is written (the stale cache and the seen
    file stay as they are), no filing is requested and no sink is
    called. *)
Theorem failed_download_aborts_run (e : env) (s : state) (company : string)
    (rest : list string)
    (Hkey : DART_API_KEY e ≠ API_KEY_PLACEHOLDER)
    (Hcompanies : companies_of (disk s) = company :: rest)
    (Hstale : ¬ fresh_cache e (disk s))
    (Hdl : ∀ items, corp_code_xml e ≠ DlListing items) :
  ∃ ex, (ex = ConnectionError ∨ ex = HTTPError ∨ ex = BadZipFile) ∧
        res (run e s) = Raise ex ∧
        post (run e s) = s ∧
        out (run e s)
        = banner ++ out (load_companies s)
          ++ [Log INFO (MsgMonitoring (length (company :: rest)))]
          ++ out (load_seen s) ++ [Log INFO MsgDownloading; GetCorpCodeXml] ∧
        calls (out (run e s)) = [].
Proof.
  destruct (refresh_corp_codes_failed e company s Hdl) as (ex & Hfail & Hex).
  rewrite <- get_corp_code_stale in Hfail by done.
  exists ex. split; [done|].
  assert (find_new_filings e s
          = Outcome (Raise ex) s
              (out (load_companies s)
               ++ [Log INFO (MsgMonitoring (length (company :: rest)))]
               ++ out (load_seen s) ++ [Log INFO MsgDownloading; GetCorpCodeXml]))
    as Hfind.
  { unfold find_new_filings.
    rewrite bind_unfold. destruct (load_companies_unfold s) as [-> ->].
    cbn zeta. rewrite Hcompanies.
    rewrite bind_unfold. cbn [log tell res post out].
    rewrite bind_unfold. destruct (load_seen_unfold s) as [-> ->]. cbn zeta.
    rewrite bind_unfold. cbn [foldM]. rewrite bind_unfold.
    rewrite (check_company_raise e _ company s ex _ _ Hfail).
    by cbn [res post out]. }
  rewrite (run_unfold e s Hkey). cbn zeta. rewrite Hfind. cbn [res post out].
  split_and!; [done..|].
  pose proof (calls_find_new_filings e s) as Hcalls. rewrite Hfind in Hcalls.
  cbn [out] in Hcalls. by rewrite calls_app, Hcalls.
Qed.

Lemma failed_download_aborts_run_witness :
  ∃ ex, res (run offline_env (State example_files 0)) = Raise ex ∧
        post (run offline_env (State example_files 0)) = State example_files 0.
Proof.
  destruct (failed_download_aborts_run offline_env (State example_files 0)
              "Acme Corp" []) as (ex & _ & Hres & Hpost & _).
  - by vm_compute.
  - reflexivity.
  - intros (mtime & corp_map & Hcache & _). discriminate Hcache.
  - intros items H. discriminate H.
  - exists ex. by split.
Defined.
















(* ------------------------------------------------------------------ *)
(** ** Filings with a missing field in the e-mail and Slack sinks *)
(* ------------------------------------------------------------------ *)

Lemma foldM_app {A B : Type} (f : B → A → M B) (l1 l2 : list A) (b : B) (s : state) :
  foldM f (l1 ++ l2) b s = (foldM f l1 b ≫= foldM f l2) s.
Proof.
  revert b s. induction l1 as [|a l1 IH]; intros b s.
  - cbn [app foldM]. rewrite bind_unfold. cbn. by destruct (foldM f l2 b s).
  - cbn [app foldM]. rewrite !bind_unfold.
    destruct (res (f b a s)) as [b'|ex]; [|done]. cbn zeta.
    rewrite IH, bind_unfold.
    destruct (res (foldM f l1 b' (post (f b a s)))); cbn; [|done].
    by rewrite app_assoc.
Qed.

(** The field a row or block of a filing fails on, when one is missing:
    the first of the three in reading order. *)
Lemma missing_display_field f :
  ¬ has_display_fields f →
  ∃ key, key ∈ ["corp_name"; "report_nm"; "rcept_dt"] ∧
         (∀ s, email_row f s = Outcome (Raise (KeyError key)) s []) ∧
         (∀ s, slack_block f s = Outcome (Raise (KeyError key)) s []).
Proof.
  intros Hf. unfold has_display_fields in Hf. unfold email_row, slack_block.
  destruct (corp_name f) as [name|].
  - destruct (report_nm f) as [title|].
    + destruct (rcept_dt f) as [date|].
      * exfalso. apply Hf. by split_and!.
      * exists "rcept_dt". split; [set_solver|]. by split.
    + exists "report_nm". split; [set_solver|]. by split.
  - exists "corp_name". split; [set_solver|]. by split.
Qed.

(** X10: the e-mail and the Slack sink read three fields of every filing
    with [f[...]] before their [try]: when a filing lacks one, the
    configured sink raises [KeyError] for the first missing field without
    opening any connection, and in a run whose ledger was written with
    e-mail configured the exception leaves [send_email], so the Slack sink
    is not called. *)
Theorem missing_field_escapes_the_sinks (e : env) (pre post_ : list filing)
    (f : filing) (s : state)
    (Hpre : Forall has_display_fields pre)
    (Hf : ¬ has_display_fields f) :
  let new_filings := pre ++ f :: post_ in
  ∃ key, key ∈ ["corp_name"; "report_nm"; "rcept_dt"] ∧
    (EMAIL_SENDER e ≠ "" → EMAIL_PASSWORD e ≠ "" → EMAIL_TO e ≠ "" →
     send_email e new_filings s
     = Outcome (Raise (KeyError key)) s [Call EMAIL new_filings]) ∧
    (SLACK_WEBHOOK e ≠ "" →
     send_slack e new_filings s
     = Outcome (Raise (KeyError key)) s [Call SLACK new_filings]) ∧
    (EMAIL_SENDER e ≠ "" → EMAIL_PASSWORD e ≠ "" → EMAIL_TO e ≠ "" →
     res (save_to_csv e new_filings s) = Ok () →
     res (dispatch e new_filings s) = Raise (KeyError key) ∧
     last (out (dispatch e new_filings s)) = Some (Call EMAIL new_filings)).
Proof.
  cbn zeta. destruct (missing_display_field f Hf) as (key & Hkey & Hrow & Hblock).
  exists key. split; [done|].
  assert (∀ s', EMAIL_SENDER e ≠ "" → EMAIL_PASSWORD e ≠ "" → EMAIL_TO e ≠ "" →
                send_email e (pre ++ f :: post_) s'
                = Outcome (Raise (KeyError key)) s' [Call EMAIL (pre ++ f :: post_)])
    as Hemail.
  { intros s' H1 H2 H3. unfold send_email.
    rewrite bind_unfold. cbn [tell res post out].
    rewrite decide_False by tauto.
    destruct (email_rows_ok pre "" s' Hpre) as [rs Hrs].
    rewrite bind_unfold, foldM_app, bind_unfold, Hrs. cbn [res post out].
    cbn [foldM]. rewrite bind_unfold, bind_unfold, Hrow. done. }
  split_and!.
  - apply Hemail.
  - intros Hhook. unfold send_slack.
    rewrite bind_unfold. cbn [tell res post out].
    rewrite decide_False by done.
    destruct (slack_blocks_ok pre [] s Hpre) as [bs Hbs].
    rewrite bind_unfold, foldM_app, bind_unfold, Hbs. cbn [res post out].
    cbn [foldM]. rewrite bind_unfold, bind_unfold, Hblock. done.
  - intros H1 H2 H3 Hcsv. unfold dispatch.
    destruct (pre ++ f :: post_) as [|g gs] eqn:Hnew; [by destruct pre|].
    rewrite bind_unfold. cbn [log tell res post out].
    rewrite bind_unfold, Hcsv. cbn zeta. rewrite <- Hnew in *.
    rewrite bind_unfold, Hemail by done. cbn [res post out].
    split; [done|].
    rewrite app_assoc. apply last_snoc.
Qed.

Lemma missing_field_escapes_the_sinks_witness :
  ∃ key, key ∈ ["corp_name"; "report_nm"; "rcept_dt"] ∧
         send_email notifying_env ([filing_A3] ++ filing_nameless_plan :: [])
                    (State example_files 0)
         = Outcome (Raise (KeyError key)) (State example_files 0)
                   [Call EMAIL ([filing_A3] ++ filing_nameless_plan :: [])].
Proof.
  destruct (missing_field_escapes_the_sinks notifying_env [filing_A3] []
              filing_nameless_plan (State example_files 0))
    as (key & Hkey & Hemail & _).
  - repeat constructor; by eexists.
  - intros ([name Hname] & _). discriminate Hname.
  - exists key. split; [exact Hkey|]. apply Hemail; by vm_compute.
Defined.

(* ------------------------------------------------------------------ *)
(** ** The order of the sinks *)
(* ------------------------------------------------------------------ *)

Lemma calls_no_call evs : Forall no_call evs → calls evs = [].
Proof.
  induction 1 as [|ev evs Hev _ IH]; [done|].
  unfold calls in *. cbn. rewrite IH. by destruct ev.
Qed.

Ltac solve_no_call := repeat step_emits; try done.

Lemma save_to_csv_calls e new_filings s :
  calls (out (save_to_csv e new_filings s)) = [(CSV, new_filings)].
Proof.
  unfold save_to_csv. rewrite bind_unfold. cbn [tell res post out].
  rewrite calls_app. cbn [calls omap app]. f_equal.
  apply calls_no_call.
  match goal with
  | |- Forall _ (out (?m ?s')) => cut (emits no_call m); [intros Hm; apply Hm|]
  end.
  solve_no_call.
Qed.

Lemma send_email_calls e new_filings s :
  calls (out (send_email e new_filings s)) = [(EMAIL, new_filings)].
Proof.
  unfold send_email. rewrite bind_unfold. cbn [tell res post out].
  rewrite calls_app. cbn [calls omap app]. f_equal.
  apply calls_no_call.
  match goal with
  | |- Forall _ (out (?m ?s')) => cut (emits no_call m); [intros Hm; apply Hm|]
  end.
  unfold email_row. solve_no_call.
Qed.

Lemma send_slack_calls e new_filings s :
  calls (out (send_slack e new_filings s)) = [(SLACK, new_filings)].
Proof.
  unfold send_slack. rewrite bind_unfold. cbn [tell res post out].
  rewrite calls_app. cbn [calls omap app]. f_equal.
  apply calls_no_call.
  match goal with
  | |- Forall _ (out (?m ?s')) => cut (emits no_call m); [intros Hm; apply Hm|]
  end.
  unfold slack_block. solve_no_call.
Qed.

Lemma dispatch_calls e new_filings s :
  calls (out (dispatch e new_filings s))
  `prefix_of` [(CSV, new_filings); (EMAIL, new_filings); (SLACK, new_filings)] ∧
  (res (dispatch e new_filings s) = Ok () → new_filings ≠ [] →
   calls (out (dispatch e new_filings s))
   = [(CSV, new_filings); (EMAIL, new_filings); (SLACK, new_filings)]).
Proof.
  unfold dispatch. destruct new_filings as [|f fs].
  { split; [|done]. cbn. apply prefix_nil. }
  rewrite bind_unfold. cbn [log tell res post out].
  rewrite bind_unfold.
  pose proof (save_to_csv_calls e (f :: fs) s) as Hcsv.
  destruct (res (save_to_csv e (f :: fs) s)) as [[]|ex]; cbn [res post out].
  - rewrite bind_unfold.
    pose proof (send_email_calls e (f :: fs) (post (save_to_csv e (f :: fs) s)))
      as Hemail.
    destruct (res (send_email e (f :: fs) _)) as [[]|ex]; cbn [res post out].
    + pose proof (send_slack_calls e (f :: fs)
                    (post (send_email e (f :: fs) (post (save_to_csv e (f :: fs) s)))))
        as Hslack.
      rewrite !calls_app, Hcsv, Hemail, Hslack. cbn. split; [done|done].
    + rewrite !calls_app, Hcsv, Hemail. cbn. split; [|done].
      by exists [(SLACK, f :: fs)].
  - rewrite !calls_app, Hcsv. cbn. split; [|done].
    by exists [(EMAIL, f :: fs); (SLACK, f :: fs)].
Qed.

(** X11: in every run the sinks are called in the order CSV, e-mail,
    Slack, each at most once and all on the same list, the new filings of
    the run; none is called when there are no new filings; and a run with
    new filings that ends normally has called all three. *)
Theorem sinks_are_called_in_order (e : env) (s : state) :
  ∃ new_filings,
    (res (find_new_filings e s) = Ok new_filings ∨ new_filings = []) ∧
    calls (out (run e s))
    `prefix_of` [(CSV, new_filings); (EMAIL, new_filings); (SLACK, new_filings)] ∧
    (new_filings = [] → calls (out (run e s)) = []) ∧
    (res (run e s) = Ok () → new_filings ≠ [] →
     calls (out (run e s))
     = [(CSV, new_filings); (EMAIL, new_filings); (SLACK, new_filings)]).
Proof.
  destruct (decide (DART_API_KEY e = API_KEY_PLACEHOLDER)) as [Hkey|Hkey].
  { exists []. rewrite (run_no_api_key e s Hkey). cbn.
    split_and!; [by right|apply prefix_nil|done|done]. }
  rewrite (run_unfold e s Hkey). cbn zeta.
  pose proof (calls_find_new_filings e s) as Hfind.
  assert (calls banner = []) as Hbanner by done.
  destruct (res (find_new_filings e s)) as [new_filings|ex] eqn:Hres.
  - exists new_filings.
    destruct (dispatch_calls e new_filings (post (find_new_filings e s)))
      as [Hprefix Hall].
    assert (new_filings = [] →
            calls (out (dispatch e new_filings (post (find_new_filings e s)))) = [])
      as Hnone by (by intros ->).
    destruct (res (dispatch e new_filings _)) as [[]|ex] eqn:Hd; cbn [res out].
    + rewrite !calls_app, Hbanner, Hfind. cbn [app]. rewrite app_nil_r.
      split_and!; [by left|done|done|]. intros _. by apply Hall.
    + rewrite !calls_app, Hbanner, Hfind. cbn [app].
      split_and!; [by left|done|done|done].
  - exists []. cbn [res out]. rewrite calls_app, Hbanner, Hfind. cbn.
    split_and!; [by right|apply prefix_nil|done|done].
Qed.

(* ------------------------------------------------------------------ *)
(** ** The classifier and the viewer URL *)
(* ------------------------------------------------------------------ *)

Lemma is_value_up_filing_spec f :
  is_value_up_filing f = true ↔
  ∃ kw, kw ∈ VALUE_UP_KEYWORDS ∧ contains_ci kw (get_or_empty (report_nm f)).
Proof.
  unfold is_value_up_filing, get_or_empty. rewrite existsb_exists.
  split; intros (kw & Hin & Hc); exists kw.
  - split; [by apply list_elem_of_In|by apply contains_lower_ci].
  - split; [by apply list_elem_of_In|by apply contains_lower_ci].
Qed.

Lemma contains_ci_lower kw title title' :
  PyStr.lower title = PyStr.lower title' → contains_ci kw title → contains_ci kw title'.
Proof.
  intros Heq. rewrite <- !contains_lower_ci. by rewrite Heq.
Qed.

(** X13: the classifier looks at the title only, and only up to case: a
    filing without a title, or with an empty one, never matches; two
    filings whose titles differ in case only are classified alike,
    whatever their other fields; and text added before or after a matching
    title leaves it matching. *)
Theorem classifier_reads_the_title_up_to_case :
  (∀ f, report_nm f = None ∨ report_nm f = Some "" → is_value_up_filing f = false) ∧
  (∀ f g,
     PyStr.lower (get_or_empty (report_nm f)) = PyStr.lower (get_or_empty (report_nm g)) →
     is_value_up_filing f = is_value_up_filing g) ∧
  (∀ f g before after,
     get_or_empty (report_nm g) = before +:+ get_or_empty (report_nm f) +:+ after →
     is_value_up_filing f = true → is_value_up_filing g = true).
Proof.
  split_and!.
  - intros f [Hf|Hf]; unfold is_value_up_filing; rewrite Hf; by vm_compute.
  - intros f g Heq. unfold is_value_up_filing, get_or_empty in *. by rewrite Heq.
  - intros f g before after Hg.
    rewrite !is_value_up_filing_spec. intros (kw & Hkw & pre & mid & post_ & Hf & Hmid).
    exists kw. split; [done|].
    exists (before +:+ pre), mid, (post_ +:+ after). split; [|done].
    by rewrite Hg, Hf, !app_assoc_str.
Qed.

Lemma substring_of_prefix kw ext title :
  PyStr.substring_of (kw +:+ ext) title → PyStr.substring_of kw title.
Proof.
  intros (pre & post_ & ->). exists pre, (ext +:+ post_). by rewrite app_assoc_str.
Qed.

(** X14: the second keyword, "기업가치제고계획", adds nothing: every title
    that contains it contains the first keyword, "기업가치제고", so the
    classifier answers the same without it. *)
Theorem keyword_plan_is_redundant (f : filing) :
  is_value_up_filing f =
  existsb (λ kw, PyStr.contains (PyStr.lower kw)
                                (PyStr.lower (get_or_empty (report_nm f))))
          KEYWORDS_WITHOUT_PLAN.
Proof.
  unfold is_value_up_filing, get_or_empty, VALUE_UP_KEYWORDS, KEYWORDS_WITHOUT_PLAN.
  set (title := PyStr.lower (default "" (report_nm f))).
  cbn [existsb].
  destruct (PyStr.contains (PyStr.lower "기업가치제고") title) eqn:Hfirst; [done|].
  cbn [orb].
  destruct (PyStr.contains (PyStr.lower "기업가치제고계획") title) eqn:Hplan; [|done].
  exfalso. apply contains_spec in Hplan.
  change (PyStr.lower "기업가치제고계획")
    with (PyStr.lower "기업가치제고" +:+ "계획") in Hplan.
  apply substring_of_prefix, contains_spec in Hplan. congruence.
Qed.

Lemma app_inv_head_str p a b : p +:+ a = p +:+ b → a = b.
Proof.
  induction p as [|c p IH]; [done|].
  rewrite !app_cons_str. intros [= H]. by apply IH.
Qed.

(** X15: the viewer URL of a filing is the fixed prefix followed by its
    receipt number (nothing when it has none), so two filings have the
    same URL exactly when the run records them under the same key; the
    [dart_url] column of a ledger row is this URL. *)
Theorem filing_url_identifies_the_key (f g : filing) :
  filing_url f = VIEWER_URL +:+ seen_key f ∧
  (filing_url f = filing_url g ↔ seen_key f = seen_key g) ∧
  (∀ e, Csv.dart_url (csv_row e f) = Csv.CStr (filing_url f) ∧
        Csv.receipt_no (csv_row e f) = Csv.CStr (seen_key f)).
Proof.
  unfold filing_url, seen_key, VIEWER_URL. split_and!; [done| |done].
  split.
  - apply app_inv_head_str.
  - by intros ->.
Qed.

(* ------------------------------------------------------------------ *)
(** ** The company list *)
(* ------------------------------------------------------------------ *)

Lemma rstrip_cons c s :
  PyStr.rstrip (String c s)
  = if PyStr.is_space_char (String c (PyStr.rstrip s)) then EmptyString
    else String c (PyStr.rstrip s).
Proof. reflexivity. Qed.

Lemma rstrip_idemp s : PyStr.rstrip (PyStr.rstrip s) = PyStr.rstrip s.
Proof.
  induction s as [|c s IH]; [done|]. rewrite rstrip_cons.
  destruct (PyStr.is_space_char (String c (PyStr.rstrip s))) eqn:Hc; [done|].
  by rewrite rstrip_cons, IH, Hc.
Qed.

(** [rstrip] removes from the end only. *)
Lemma rstrip_prefix s : ∃ tail, s = PyStr.rstrip s +:+ tail.
Proof.
  induction s as [|c s [tail IH]]; [by exists ""|]. rewrite rstrip_cons.
  destruct (PyStr.is_space_char (String c (PyStr.rstrip s))).
  - by exists (String c s).
  - exists tail. change (String c s = String c (PyStr.rstrip s +:+ tail)).
    by f_equal.
Qed.

(** [lstrip] removes one whitespace character after the other. *)
Lemma lstrip_unfold s :
  PyStr.lstrip s
  = match PyStr.after_space s with
    | Some rest => PyStr.lstrip rest
    | None => s
    end.
Proof.
  destruct s as [|c1 s1]; [done|].
  destruct (PyStr.is_space c1) eqn:H1.
  { cbn [PyStr.lstrip PyStr.after_space]. by rewrite H1. }
  destruct s1 as [|c2 s2].
  { cbn [PyStr.lstrip PyStr.after_space]. by rewrite H1. }
  destruct (PyStr.is_space2 c1 c2) eqn:H2.
  { cbn [PyStr.lstrip PyStr.after_space]. by rewrite H1, H2. }
  destruct s2 as [|c3 s3].
  { cbn [PyStr.lstrip PyStr.after_space]. by rewrite H1, H2. }
  cbn [PyStr.lstrip PyStr.after_space]. rewrite H1, H2.
  by destruct (PyStr.is_space3 c1 c2 c3).
Qed.

Lemma after_space_length s rest :
  PyStr.after_space s = Some rest → (String.length rest < String.length s)%nat.
Proof.
  destruct s as [|c1 [|c2 [|c3 s3]]]; cbn; repeat case_match;
    intros; simplify_eq; cbn; lia.
Qed.

Lemma after_space_app s rest tail :
  PyStr.after_space s = Some rest →
  PyStr.after_space (s +:+ tail) = Some (rest +:+ tail).
Proof.
  destruct s as [|c1 [|c2 [|c3 s3]]]; cbn; repeat case_match;
    intros; simplify_eq;
    cbv -[PyStr.is_space PyStr.is_space2 PyStr.is_space3];
    repeat match goal with H : ?b = _ |- context [?b] => rewrite H end;
    done.
Qed.

Lemma lstrip_no_space s : PyStr.after_space (PyStr.lstrip s) = None.
Proof.
  remember (String.length s) as n eqn:Hn. revert s Hn.
  induction n as [n IH] using lt_wf_ind. intros s ->.
  rewrite lstrip_unfold. destruct (PyStr.after_space s) as [rest|] eqn:Hs; [|done].
  eapply IH; [|done]. by apply after_space_length.
Qed.

Lemma strip_idemp s : PyStr.strip (PyStr.strip s) = PyStr.strip s.
Proof.
  unfold PyStr.strip. set (t := PyStr.lstrip s).
  assert (PyStr.after_space (PyStr.rstrip t) = None) as Hnone.
  { destruct (rstrip_prefix t) as [tail Htail].
    destruct (PyStr.after_space (PyStr.rstrip t)) as [rest|] eqn:Hr; [|done].
    apply (after_space_app _ _ tail) in Hr. rewrite <- Htail in Hr.
    unfold t in Hr. by rewrite lstrip_no_space in Hr. }
  rewrite (lstrip_unfold (PyStr.rstrip t)), Hnone. apply rstrip_idemp.
Qed.

(** X16: every company [load_companies] returns from companies.txt is a
    line of the file stripped of surrounding whitespace (all of what
    [str.strip] removes), not empty and not starting with "#", in the
    order of the file; stripping it again changes nothing, so on the names
    [run] passes to the resolver the lookup is the lower-cased one: exact
    key, then first key containing it. *)
Theorem companies_are_stripped_lines (s : state) (lines companies : list string)
    (Hfile : companies_txt (disk s) = Some lines)
    (Hres : res (load_companies s) = Ok companies) :
  companies `sublist_of` (PyStr.strip <$> lines) ∧
  (∀ line, line ∈ lines → PyStr.strip line ≠ "" →
           PyStr.startswith "#" (PyStr.strip line) = false →
           PyStr.strip line ∈ companies) ∧
  (∀ c, c ∈ companies →
        c ≠ "" ∧ PyStr.startswith "#" c = false ∧ PyStr.strip c = c ∧
        ∀ lower corp_map,
          _search_corp_map lower corp_map c = resolve_as_specified lower corp_map c).
Proof.
  destruct (load_companies_unfold s) as [Hload _]. rewrite Hload in Hres.
  injection Hres as <-. unfold companies_of. rewrite Hfile.
  split_and!.
  - apply sublist_filter.
  - intros line Hin Hne Hhash. apply list_elem_of_filter. split; [done|].
    by apply list_elem_of_fmap_2.
  - intros c [[Hne Hhash] (line & -> & Hin)%list_elem_of_fmap]%list_elem_of_filter.
    split_and!; [done..|apply strip_idemp|].
    intros lower corp_map. unfold _search_corp_map, resolve_as_specified.
    by rewrite strip_idemp.
Qed.

Lemma companies_are_stripped_lines_witness :
  companies_txt (disk (State example_files 0)) = Some ["Acme Corp"] ∧
  res (load_companies (State example_files 0)) = Ok ["Acme Corp"] ∧
  PyStr.strip "Acme Corp" = "Acme Corp".
Proof.
  assert (companies_txt (disk (State example_files 0)) = Some ["Acme Corp"])
    as Hfile by reflexivity.
  assert (res (load_companies (State example_files 0)) = Ok ["Acme Corp"])
    as Hres by reflexivity.
  split_and!; [exact Hfile|exact Hres|].
  destruct (companies_are_stripped_lines _ _ _ Hfile Hres) as (_ & _ & Hc).
  apply (Hc "Acme Corp"). by left.
Defined.

(* ------------------------------------------------------------------ *)
(** ** When a run ends normally *)
(* ------------------------------------------------------------------ *)







(* ------------------------------------------------------------------ *)
(** ** Companies that do not resolve *)
(* ------------------------------------------------------------------ *)

Lemma fetched_skip_unresolved e s mtime corp_map before company after :
  corp_codes_json (disk s) = Some (mtime, corp_map) →
  now e - mtime < SEVEN_DAYS →
  _search_corp_map (str_lower e) corp_map company = None
  ∨ _search_corp_map (str_lower e) corp_map company = Some "" →
  fetched e (before ++ company :: after) s = fetched e (before ++ after) s.
Proof.
  intros Hcache Hage Hnone. revert s Hcache.
  induction before as [|c before IH]; intros s Hcache; cbn [app fetched].
  - rewrite (get_corp_code_cached e company s mtime corp_map) by done.
    cbn [res post]. destruct Hnone as [->| ->]; [done|]. by rewrite decide_True.
  - rewrite (get_corp_code_cached e c s mtime corp_map) by done. cbn [res post].
    destruct (_search_corp_map (str_lower e) corp_map c) as [code|]; [|by apply IH].
    case_decide; [by apply IH|].
    rewrite search_filings_unfold. cbn [res post]. by rewrite IH.
Qed.

(** X18: with a fresh identifier cache, a company that resolves to
    nothing (or to an empty code) is skipped with a warning: its turn of
    the loop reads the cache, makes no request and leaves the seen set and
    the new filings as they were, and the fetcher returns for the whole
    list what it returns for the list without that company. *)
Theorem unresolved_company_is_skipped (e : env) (s : state) (mtime : Z)
    (corp_map : list (string * string)) (company : string)
    (Hcache : corp_codes_json (disk s) = Some (mtime, corp_map))
    (Hage : now e - mtime < SEVEN_DAYS)
    (Hnone : _search_corp_map (str_lower e) corp_map company = None
             ∨ _search_corp_map (str_lower e) corp_map company = Some "") :
  (∀ acc, check_company e acc company s
          = Outcome (Ok acc) s [FsRead CACHE_FILE; Log WARNING (MsgNoCorpCode company)]) ∧
  (∀ before after,
     fetched e (before ++ company :: after) s = fetched e (before ++ after) s).
Proof.
  split.
  - intros acc. unfold check_company.
    rewrite bind_unfold, (get_corp_code_cached e company s mtime corp_map) by done.
    cbn [res post out]. destruct Hnone as [->| ->].
    + rewrite bind_unfold. cbn. by destruct s.
    + rewrite decide_True by done. rewrite bind_unfold. cbn. by destruct s.
  - intros before after. by eapply fetched_skip_unresolved.
Qed.

Lemma unresolved_company_is_skipped_witness :
  let s := State (disk (post (run_on example_env example_files))) 0 in
  fetched example_env (["Acme Corp"] ++ "Gamma Ltd" :: []) s
  = fetched example_env (["Acme Corp"] ++ []) s.
Proof.
  cbn zeta.
  refine (proj2 (unresolved_company_is_skipped example_env
                   (State (disk (post (run_on example_env example_files))) 0)
                   1716200000 (build_corp_map PyStr.lower example_listing)
                   "Gamma Ltd" _ _ _)
                ["Acme Corp"] []).
  - by vm_compute.
  - by vm_compute.
  - left. by vm_compute.
Defined.

(* ------------------------------------------------------------------ *)
(** ** Delivery over the runs *)
(* ------------------------------------------------------------------ *)

Lemma files_after_seen es d : persisted_seen d ⊆ persisted_seen (files_after es d).
Proof.
  revert d. induction es as [|e es IH]; intros d; [done|]. cbn [files_after].
  etrans; [|apply IH]. apply (keeps_run_seen e (State d 0)).
Qed.

(** The key of a filing handed to a sink is in the seen set the runs
    leave. *)
Lemma runs_hand_seen es d o ev f :
  o ∈ runs es d → ev ∈ out o → f ∈ filings_of ev →
  seen_key f ∈ persisted_seen (files_after es d).
Proof.
  revert d. induction es as [|e es IH]; intros d Ho Hev Hf; cbn in Ho.
  - by apply elem_of_nil in Ho.
  - cbn [files_after]. apply elem_of_cons in Ho as [->|Ho]; [|by apply IH].
    apply files_after_seen.
    by destruct (run_hands_unseen e (State d 0) ev f Hev Hf) as [_ Hseen].
Qed.

(** A configured e-mail sink, given filings with the fields it reads,
    opens one SMTP session and returns, whatever the server does. *)
Lemma send_email_session e new_filings s :
  email_configured e → Forall has_display_fields new_filings →
  ∃ rows,
    send_email e new_filings s
    = Outcome (Ok ()) s
        (Call EMAIL new_filings :: SmtpConnect ::
         smtp_session e (PyStr.strip <$> PyStr.split "," (EMAIL_TO e)) rows new_filings).
Proof.
  intros (Hsender & Hpassword & Hto) Hall.
  unfold send_email. rewrite bind_unfold. cbn [tell res post out].
  rewrite decide_False by tauto.
  destruct (email_rows_ok new_filings "" s Hall) as [rs Hrs]. exists rs.
  rewrite bind_unfold, Hrs. cbn [res post out].
  unfold try_except, smtp_session. rewrite bind_unfold. cbn [tell res post out].
  destruct s. by destruct (smtp e).
Qed.

(** A configured Slack sink, given filings with the fields it reads,
    makes one POST and returns, whatever the webhook answers. *)
Lemma send_slack_post e new_filings s :
  SLACK_WEBHOOK e ≠ "" → Forall has_display_fields new_filings →
  ∃ blocks,
    send_slack e new_filings s
    = Outcome (Ok ()) s (Call SLACK new_filings :: slack_post e blocks new_filings).
Proof.
  intros Hhook Hall.
  unfold send_slack. rewrite bind_unfold. cbn [tell res post out].
  rewrite decide_False by done.
  destruct (slack_blocks_ok new_filings [] s Hall) as [bs Hbs]. exists bs.
  rewrite bind_unfold, Hbs. cbn [res post out].
  unfold try_except, slack_post. rewrite bind_unfold. cbn [tell res post out].
  destruct s. by destruct (slack e).
Qed.

(** The sinks a run with new filings calls: [save_to_csv], then
    [send_email] if that returned, then [send_slack] if that returned. *)
Lemma dispatch_calls_exact e new_filings s :
  new_filings ≠ [] →
  let saved := save_to_csv e new_filings s in
  let mailed := send_email e new_filings (post saved) in
  calls (out (dispatch e new_filings s))
  = (CSV, new_filings) ::
    match res saved with
    | Ok _ => (EMAIL, new_filings) ::
              match res mailed with
              | Ok _ => [(SLACK, new_filings)]
              | Raise _ => []
              end
    | Raise _ => []
    end.
Proof.
  intros Hne saved mailed. unfold dispatch.
  destruct new_filings as [|f fs]; [done|].
  rewrite bind_unfold. cbn [log tell res post out].
  rewrite bind_unfold. fold saved.
  pose proof (save_to_csv_calls e (f :: fs) s) as Hcsv. fold saved in Hcsv.
  destruct (res saved) as [[]|ex]; cbn [res post out].
  - rewrite bind_unfold. fold mailed.
    pose proof (send_email_calls e (f :: fs) (post saved)) as Hemail.
    fold mailed in Hemail.
    destruct (res mailed) as [[]|ex]; cbn [res post out].
    + rewrite !calls_app, Hcsv, Hemail, send_slack_calls. done.
    + rewrite !calls_app, Hcsv, Hemail. done.
  - rewrite !calls_app, Hcsv. done.
Qed.

(** The sinks' part of a run when the ledger is written and the e-mail
    sink returns. *)
Lemma dispatch_unfold e new_filings s :
  new_filings ≠ [] →
  let saved := save_to_csv e new_filings s in
  let mailed := send_email e new_filings (post saved) in
  let slacked := send_slack e new_filings (post mailed) in
  res saved = Ok () → res mailed = Ok () →
  dispatch e new_filings s
  = Outcome (res slacked) (post slacked)
      ([Log INFO (MsgFound (length new_filings))] ++ out saved ++ out mailed
       ++ out slacked).
Proof.
  intros Hne saved mailed slacked Hsaved Hmailed.
  unfold dispatch. destruct new_filings as [|f fs]; [done|].
  rewrite bind_unfold. cbn [log tell res post out].
  rewrite bind_unfold. fold saved. rewrite Hsaved. cbn zeta.
  rewrite bind_unfold. fold mailed. rewrite Hmailed. cbn zeta. cbn [res post out].
  by fold slacked.
Qed.

(** C5 (as amended): delivery of a new match is attempted once, by the
    run that finds it, and never again.  In any sequence of runs, a run
    that finds the filing [f] new has its key in the seen set it saves,
    where it was not before, and calls no sink until that set is saved;
    it then calls [save_to_csv] with the new filings, first and once,
    then [send_email] if [save_to_csv] returned, then [send_slack] if
    [send_email] returned, each once and with the same filings, and no
    sink besides.  When the ledger is written and every new filing has
    the fields the messages read, the run ends normally having called all
    three: a configured e-mail sink has opened one SMTP session and a
    configured Slack sink made one POST, each with the new filings, its
    success or its failure logged and nothing retried.  No earlier and no
    later run hands a filing with the key of [f] to any sink. *)
Theorem delivery_is_attempted_once (earlier later : list env) (e : env) (d0 : files)
    (new_filings : list filing) (f : filing)
    (Hkey : DART_API_KEY e ≠ API_KEY_PLACEHOLDER)
    (Hnew : res (find_new_filings e (State (files_after earlier d0) 0)) = Ok new_filings)
    (Hf : f ∈ new_filings) :
  let d := files_after earlier d0 in
  let found := find_new_filings e (State d 0) in
  let sunk := dispatch e new_filings (post found) in
  let saved := save_to_csv e new_filings (post found) in
  let mailed := send_email e new_filings (post saved) in
  let slacked := send_slack e new_filings (post mailed) in
  let o := run_on e d in
  (seen_key f ∉ persisted_seen d) ∧
  seen_key f ∈ persisted_seen (disk (post found)) ∧
  seen_key f ∈ persisted_seen (disk (post o)) ∧
  calls (banner ++ out found) = [] ∧
  (∃ done_, out o = banner ++ out found ++ out sunk ++ done_ ∧ calls done_ = []) ∧
  calls (out o)
  = (CSV, new_filings) ::
    match res saved with
    | Ok _ => (EMAIL, new_filings) ::
              match res mailed with
              | Ok _ => [(SLACK, new_filings)]
              | Raise _ => []
              end
    | Raise _ => []
    end ∧
  (res saved = Ok () → Forall has_display_fields new_filings →
   res o = Ok () ∧
   calls (out o) = [(CSV, new_filings); (EMAIL, new_filings); (SLACK, new_filings)] ∧
   out o = banner ++ out found ++ [Log INFO (MsgFound (length new_filings))]
           ++ out saved ++ out mailed ++ out slacked ++ [Log INFO MsgDone] ∧
   (email_configured e →
    ∃ recipients rows,
      out mailed = Call EMAIL new_filings :: SmtpConnect ::
                   smtp_session e recipients rows new_filings) ∧
   (SLACK_WEBHOOK e ≠ "" →
    ∃ blocks, out slacked = Call SLACK new_filings :: slack_post e blocks new_filings)) ∧
  (∀ o' ev g,
     o' ∈ runs earlier d0 ∨ o' ∈ runs later (disk (post o)) →
     ev ∈ out o' → g ∈ filings_of ev → seen_key g ≠ seen_key f).
Proof.
  intros d found sunk saved mailed slacked o.
  change (res found = Ok new_filings) in Hnew.
  assert (new_filings ≠ []) as Hne by (intros ->; by apply elem_of_nil in Hf).
  assert ((seen_key f ∉ persisted_seen d) ∧
          seen_key f ∈ persisted_seen (disk (post found))) as [Hunseen Hseen].
  { pose proof (find_new_filings_unfold e (State d 0)) as H. cbn zeta in H.
    fold found in H. cbn [disk] in H.
    destruct (fetched e (companies_of d) (State d 0)) as [filings|ex].
    - destruct H as [Hres ->]. rewrite Hnew in Hres. injection Hres as ->.
      apply select_elem_of in Hf as (Hin & HS & _). split; [done|].
      apply elem_of_union_r, elem_of_list_to_set. by apply list_elem_of_fmap_2.
    - destruct H as [Hres _]. congruence. }
  assert (seen_key f ∈ persisted_seen (disk (post o))) as Hseen'.
  { unfold persisted_seen, o, run_on in *.
    by rewrite (run_seen_file e (State d 0) Hkey). }
  assert (calls (banner ++ out found) = []) as Hquiet.
  { rewrite calls_app. cbn [banner calls omap app].
    apply calls_backstage, emits_find_new_filings. }
  assert (calls (out found) = []) as Hquiet'.
  { apply calls_backstage, emits_find_new_filings. }
  assert (∃ done_, out o = banner ++ out found ++ out sunk ++ done_ ∧ calls done_ = [])
    as (done_ & Hout & Hdone).
  { unfold o, run_on. rewrite (run_unfold e (State d 0) Hkey). cbn zeta.
    fold found. rewrite Hnew. fold sunk.
    destruct (res sunk); cbn [out].
    - by exists [Log INFO MsgDone].
    - exists []. by rewrite !app_nil_r. }
  assert (calls (out o) = calls (out sunk)) as Hcalls.
  { rewrite Hout, !calls_app, Hdone, Hquiet', app_nil_r. done. }
  split_and!; [done..| | | |].
  - by exists done_.
  - rewrite Hcalls. by apply dispatch_calls_exact.
  - intros Hsaved Hall.
    assert (res mailed = Ok ()) as Hmailed by by apply send_email_ok.
    assert (res slacked = Ok ()) as Hslacked by (apply send_slack_ok; by right).
    pose proof (dispatch_unfold e new_filings (post found) Hne Hsaved Hmailed)
      as Hsunk.
    fold sunk saved mailed slacked in Hsunk. rewrite Hslacked in Hsunk.
    assert (res o = Ok () ∧
            out o = banner ++ out found ++ [Log INFO (MsgFound (length new_filings))]
                    ++ out saved ++ out mailed ++ out slacked ++ [Log INFO MsgDone])
      as [Hres Hout'].
    { unfold o, run_on. rewrite (run_unfold e (State d 0) Hkey). cbn zeta.
      fold found. rewrite Hnew. fold sunk. rewrite Hsunk. cbn [res out].
      split; [done|]. by rewrite <- !app_assoc. }
    split_and!; [done| |done| |].
    + rewrite Hcalls. apply dispatch_calls; [|done].
      change (res sunk = Ok ()). by rewrite Hsunk.
    + intros Hmail.
      destruct (send_email_session e new_filings (post saved) Hmail Hall)
        as [rows Hrows].
      exists (PyStr.strip <$> PyStr.split "," (EMAIL_TO e)), rows.
      unfold mailed. by rewrite Hrows.
    + intros Hhook.
      destruct (send_slack_post e new_filings (post mailed) Hhook Hall)
        as [blocks Hblocks].
      exists blocks. unfold slacked. by rewrite Hblocks.
  - intros o' ev g [Ho'|Ho'] Hev Hg.
    + intros Heq. apply Hunseen. rewrite <- Heq.
      by apply (runs_hand_seen earlier d0 o' ev g).
    + by apply (runs_never_hand_seen later (disk (post o)) (seen_key f) Hseen' o' ev g).
Qed.

Lemma delivery_is_attempted_once_witness :
  let d := files_after [notifying_env] example_files in
  DART_API_KEY later_env ≠ API_KEY_PLACEHOLDER ∧
  res (find_new_filings later_env (State d 0)) = Ok [filing_A4] ∧
  filing_A4 ∈ [filing_A4] ∧
  calls (out (run_on later_env d))
  = [(CSV, [filing_A4]); (EMAIL, [filing_A4]); (SLACK, [filing_A4])] ∧
  (∀ o' ev g,
     o' ∈ runs [notifying_env] example_files
     ∨ o' ∈ runs [later_env; later_env] (disk (post (run_on later_env d))) →
     ev ∈ out o' → g ∈ filings_of ev → seen_key g ≠ "A4").
Proof.
  cbn zeta.
  assert (DART_API_KEY later_env ≠ API_KEY_PLACEHOLDER) as Hkey by discriminate.
  assert (res (find_new_filings later_env
                 (State (files_after [notifying_env] example_files) 0))
          = Ok [filing_A4]) as Hnew by (by vm_compute).
  assert (filing_A4 ∈ [filing_A4]) as Hf by (by left).
  destruct (delivery_is_attempted_once [notifying_env] [later_env; later_env]
              later_env example_files [filing_A4] filing_A4 Hkey Hnew Hf)
    as (_ & _ & _ & _ & _ & _ & Hall & Hothers).
  split_and!; [exact Hkey|exact Hnew|exact Hf| |exact Hothers].
  apply Hall.
  - by vm_compute.
  - repeat constructor; by eexists.
Defined.
